(** * TwitterAPI.io MCP server: tool dispatch and upstream proxying

    A shallow embedding of [src/index.ts] (class [TwitterAPIMCPServer]):
    the tool catalog, the [CallTool] request handler, the two request
    helpers [makeRequest] / [makePostRequest], the eleven tool methods
    and the session field [loginCookie]; followed by the properties of
    the dispatcher proved about them.

    Conventions.
    - A JavaScript value that came out of [JSON.parse] (tool arguments,
      upstream response bodies) is a [json] document; the members of an
      object are listed in the order the object enumerates them.  A
      value that may be [undefined] is an [option json].
    - JavaScript numbers are modelled by their integer values ([Z]),
      printed in decimal; fractions, [NaN], the exponent notation of
      large numbers and the loss of precision above 2^53 are outside
      the model.
    - A character of a Rocq [string] stands for one UTF-16 code unit in
      the range 0..255.
    - The HTTP client ([axios]) is an external collaborator: it is a
      function [upstream] from the request issued to the response it
      resolves with or the error it rejects with.  Every call made
      through the client is recorded, in order, in the list [issued].
    - [JSON.stringify] and [JSON.parse] are functions of the platform;
      [JSONText] models them after ECMAScript and RFC 8259 on the
      documents above. *)

From Stdlib Require Import String Ascii List ZArith Bool Lia.
From Stdlib Require Import Decimal DecimalString DecimalZ.
Import ListNotations.

#[local] Open Scope string_scope.
#[local] Open Scope Z_scope.

(* ===================================================================== *)
(** ** JavaScript values *)
(* ===================================================================== *)

Module JS.

Inductive json : Type :=
| JNull
| JBool (b : bool)
| JNum (n : Z)
| JStr (s : string)
| JArr (items : list json)
| JObj (members : list (string * json)).

(** Own-property lookup in an object's member list. *)
Fixpoint assoc (k : string) (ms : list (string * json)) : option json :=
  match ms with
  | [] => None
  | (k', v) :: ms' => if String.eqb k k' then Some v else assoc k ms'
  end.

(** [v.k] for a receiver [v] that is not [null]: only objects carry the
    keys read by the server ([cookie], [user], [error]); on a string,
    number, boolean or array the access yields [undefined]. *)
Definition prop (v : json) (k : string) : option json :=
  match v with
  | JObj ms => assoc k ms
  | _ => None
  end.

(** ToBoolean. *)
Definition truthy (v : json) : bool :=
  match v with
  | JNull => false
  | JBool b => b
  | JNum n => negb (n =? 0)
  | JStr s => negb (String.eqb s "")
  | JArr _ | JObj _ => true
  end.

Definition truthy_opt (o : option json) : bool :=
  match o with
  | None => false
  | Some v => truthy v
  end.

(** [a || b] where [b] is always defined. *)
Definition or_else (a : option json) (b : json) : json :=
  match a with
  | Some v => if truthy v then v else b
  | None => b
  end.

(** Number::toString on an integer value. *)
Definition show_number (n : Z) : string :=
  NilEmpty.string_of_int (Z.to_int n).

(** ToString, as applied by a template literal. *)
Fixpoint ToString (v : json) : string :=
  match v with
  | JNull => "null"
  | JBool true => "true"
  | JBool false => "false"
  | JNum n => show_number n
  | JStr s => s
  | JArr items =>
      String.concat ","
        (map (fun e => match e with JNull => "" | _ => ToString e end) items)
  | JObj _ => "[object Object]"
  end.

(** What a request parameter or body field can hold: [undefined], a
    document, or the number computed by [Math.min] from an argument
    that is not a number. *)
Inductive jsval : Type :=
| Undefined
| Val (j : json)
| CoercedMin (v : json) (m : Z).

Definition of_arg (o : option json) : jsval :=
  match o with
  | None => Undefined
  | Some v => Val v
  end.

(** A parameter with a default value, [x = d]: the default replaces
    [undefined] only. *)
Definition default (x : option json) (d : json) : json :=
  match x with
  | None => d
  | Some v => v
  end.

(** [Math.min(v, m)].  ToNumber is the identity on numbers, sends
    [null] and [false] to 0 and [true] to 1.  For a string, an array or
    an object it goes through StringToNumber; that result is kept
    symbolic as [CoercedMin v m]. *)
Definition Math_min (v : json) (m : Z) : jsval :=
  match v with
  | JNum n => Val (JNum (Z.min n m))
  | JNull | JBool false => Val (JNum (Z.min 0 m))
  | JBool true => Val (JNum (Z.min 1 m))
  | JStr _ | JArr _ | JObj _ => CoercedMin v m
  end.

End JS.

Import JS.

(* ===================================================================== *)
(** ** JSON text: [JSON.stringify (value, null, 2)] *)
(* ===================================================================== *)

Module JSONText.

Definition nl : string := String (ascii_of_nat 10) "".
Definition dq : ascii := ascii_of_nat 34.
Definition gap : string := "  ".

Definition hex_digit (n : nat) : ascii :=
  match n with
  | 0 => "0" | 1 => "1" | 2 => "2" | 3 => "3" | 4 => "4"
  | 5 => "5" | 6 => "6" | 7 => "7" | 8 => "8" | 9 => "9"
  | 10 => "a" | 11 => "b" | 12 => "c" | 13 => "d" | 14 => "e"
  | _ => "f"
  end%nat%char.

(** One code unit of QuoteJSONString. *)
Definition escape_char (c : ascii) : string :=
  let n := nat_of_ascii c in
  if (n =? 34)%nat then String "\" (String dq "")
  else if (n =? 92)%nat then "\\"
  else if (n =? 8)%nat then "\b"
  else if (n =? 9)%nat then "\t"
  else if (n =? 10)%nat then "\n"
  else if (n =? 12)%nat then "\f"
  else if (n =? 13)%nat then "\r"
  else if (n <? 32)%nat then
    "\u00" ++ String (hex_digit (n / 16)) (String (hex_digit (n mod 16)) "")
  else String c "".

Fixpoint escape (s : string) : string :=
  match s with
  | EmptyString => ""
  | String c s' => escape_char c ++ escape s'
  end.

Definition QuoteJSONString (s : string) : string :=
  String dq (escape s ++ String dq "").

(** SerializeJSONProperty with the gap of two spaces; [indent] is the
    current indentation.  A document holds no [undefined], function or
    symbol, so no member is skipped. *)
Fixpoint Serialize (indent : string) (v : json) : string :=
  match v with
  | JNull => "null"
  | JBool true => "true"
  | JBool false => "false"
  | JNum n => show_number n
  | JStr s => QuoteJSONString s
  | JArr [] => "[]"
  | JArr (x :: xs) =>
      let stepback := indent in
      let indent := indent ++ gap in
      "[" ++ nl ++ indent ++ Serialize indent x
      ++ (fix elements (l : list json) : string :=
            match l with
            | [] => ""
            | y :: l' => "," ++ nl ++ indent ++ Serialize indent y ++ elements l'
            end) xs
      ++ nl ++ stepback ++ "]"
  | JObj [] => "{}"
  | JObj ((k, x) :: ms) =>
      let stepback := indent in
      let indent := indent ++ gap in
      "{" ++ nl ++ indent ++ QuoteJSONString k ++ ": " ++ Serialize indent x
      ++ (fix properties (l : list (string * json)) : string :=
            match l with
            | [] => ""
            | (k', y) :: l' =>
                "," ++ nl ++ indent ++ QuoteJSONString k' ++ ": "
                ++ Serialize indent y ++ properties l'
            end) ms
      ++ nl ++ stepback ++ "}"
  end.

(** [JSON.stringify (v, null, 2)]. *)
Definition stringify (v : json) : string := Serialize "" v.

(** *** Reading a JSON text back

    What a caller does with the text block: [JSON.parse], here the
    grammar of RFC 8259 restricted to the documents of the model
    (integer numbers without leading zeros, fraction or exponent; code
    units below 256).  A text outside that fragment is refused. *)

Definition is_ws (c : ascii) : bool :=
  let n := nat_of_ascii c in
  ((n =? 32) || (n =? 9) || (n =? 10) || (n =? 13))%nat.

Fixpoint skip_ws (s : string) : string :=
  match s with
  | String c r => if is_ws c then skip_ws r else s
  | EmptyString => s
  end.

(** [strip p s]: what follows the prefix [p] of [s]. *)
Fixpoint strip (p s : string) : option string :=
  match p with
  | EmptyString => Some s
  | String a p' =>
      match s with
      | String b s' => if Ascii.eqb a b then strip p' s' else None
      | EmptyString => None
      end
  end.

Definition digit_of (c : ascii) : option (uint -> uint) :=
  match nat_of_ascii c with
  | 48 => Some D0 | 49 => Some D1 | 50 => Some D2 | 51 => Some D3
  | 52 => Some D4 | 53 => Some D5 | 54 => Some D6 | 55 => Some D7
  | 56 => Some D8 | 57 => Some D9
  | _ => None
  end%nat.

Fixpoint parse_digits (s : string) : uint * string :=
  match s with
  | String c r =>
      match digit_of c with
      | Some d => let (u, r') := parse_digits r in (d u, r')
      | None => (Nil, s)
      end
  | EmptyString => (Nil, s)
  end.

(** The integer a literal denotes.  Only the canonical literal of an
    integer is accepted: no empty digit string, no leading zero, no
    negative zero. *)
Definition number_of (i : int) : option Z :=
  if int_eq_dec (Z.to_int (Z.of_int i)) i then Some (Z.of_int i) else None.

Definition parse_number (s : string) : option (Z * string) :=
  let (negative, s1) :=
    match s with
    | String c r => if (nat_of_ascii c =? 45)%nat then (true, r) else (false, s)
    | EmptyString => (false, s)
    end in
  let (u, r) := parse_digits s1 in
  match number_of (if negative then Neg u else Pos u) with
  | Some n => Some (n, r)
  | None => None
  end.

Definition hex_value (c : ascii) : option nat :=
  let n := nat_of_ascii c in
  if ((48 <=? n) && (n <=? 57))%nat then Some (n - 48)%nat
  else if ((97 <=? n) && (n <=? 102))%nat then Some (n - 87)%nat
  else if ((65 <=? n) && (n <=? 70))%nat then Some (n - 55)%nat
  else None.

(** The character an escape letter stands for. *)
Definition unescape (c : ascii) : option ascii :=
  match nat_of_ascii c with
  | 34 => Some dq                    (* quote *)
  | 92 => Some (ascii_of_nat 92)     (* backslash *)
  | 47 => Some (ascii_of_nat 47)     (* solidus *)
  | 98 => Some (ascii_of_nat 8)      (* b *)
  | 102 => Some (ascii_of_nat 12)    (* f *)
  | 110 => Some (ascii_of_nat 10)    (* n *)
  | 114 => Some (ascii_of_nat 13)    (* r *)
  | 116 => Some (ascii_of_nat 9)     (* t *)
  | _ => None
  end%nat.

Definition cons_char (c : ascii) (o : option (string * string))
  : option (string * string) :=
  match o with
  | Some (t, r) => Some (String c t, r)
  | None => None
  end.

(** The characters of a string literal, after its opening quote. *)
Fixpoint parse_chars (s : string) : option (string * string) :=
  match s with
  | EmptyString => None
  | String c r =>
      let n := nat_of_ascii c in
      if (n =? 34)%nat then Some (EmptyString, r)
      else if (n =? 92)%nat then
        match r with
        | String e r1 =>
            if (nat_of_ascii e =? 117)%nat then
              match r1 with
              | String h1 (String h2 (String h3 (String h4 r2))) =>
                  match hex_value h1, hex_value h2, hex_value h3, hex_value h4 with
                  | Some 0%nat, Some 0%nat, Some a, Some b =>
                      cons_char (ascii_of_nat (16 * a + b)) (parse_chars r2)
                  | _, _, _, _ => None
                  end
              | _ => None
              end
            else
              match unescape e with
              | Some ch => cons_char ch (parse_chars r1)
              | None => None
              end
        | EmptyString => None
        end
      else if (n <? 32)%nat then None
      else cons_char c (parse_chars r)
  end.

Definition parse_string (s : string) : option (string * string) :=
  match s with
  | String c r => if (nat_of_ascii c =? 34)%nat then parse_chars r else None
  | EmptyString => None
  end.

Definition head_is (n : nat) (s : string) : bool :=
  match s with
  | String c _ => (nat_of_ascii c =? n)%nat
  | EmptyString => false
  end.

Definition tail (s : string) : string :=
  match s with
  | String _ r => r
  | EmptyString => s
  end.

(** Recursive descent; [fuel] bounds the nesting and the number of
    elements, and [parse] supplies the length of the text. *)
Fixpoint parse_value (fuel : nat) (s : string) : option (json * string) :=
  match fuel with
  | O => None
  | S fuel =>
      if head_is 110 s then                           (* n *)
        option_map (pair JNull) (strip "null" s)
      else if head_is 116 s then                      (* t *)
        option_map (pair (JBool true)) (strip "true" s)
      else if head_is 102 s then                      (* f *)
        option_map (pair (JBool false)) (strip "false" s)
      else if head_is 34 s then                       (* quote *)
        match parse_string s with
        | Some (t, r) => Some (JStr t, r)
        | None => None
        end
      else if head_is 91 s then                       (* [ *)
        let r := skip_ws (tail s) in
        if head_is 93 r then Some (JArr [], tail r)
        else
          match parse_value fuel r with
          | Some (x, r1) =>
              match parse_elements fuel (skip_ws r1) with
              | Some (xs, r2) => Some (JArr (x :: xs), r2)
              | None => None
              end
          | None => None
          end
      else if head_is 123 s then                      (* { *)
        let r := skip_ws (tail s) in
        if head_is 125 r then Some (JObj [], tail r)
        else
          match parse_member fuel r with
          | Some (m, r1) =>
              match parse_members fuel (skip_ws r1) with
              | Some (ms, r2) => Some (JObj (m :: ms), r2)
              | None => None
              end
          | None => None
          end
      else
        match parse_number s with
        | Some (n, r) => Some (JNum n, r)
        | None => None
        end
  end

(** After an element: a comma and the next element, or the closing
    bracket. *)
with parse_elements (fuel : nat) (s : string) : option (list json * string) :=
  match fuel with
  | O => None
  | S fuel =>
      if head_is 93 s then Some ([], tail s)          (* ] *)
      else if head_is 44 s then                       (* , *)
        match parse_value fuel (skip_ws (tail s)) with
        | Some (x, r1) =>
            match parse_elements fuel (skip_ws r1) with
            | Some (xs, r2) => Some (x :: xs, r2)
            | None => None
            end
        | None => None
        end
      else None
  end

(** [string : value]. *)
with parse_member (fuel : nat) (s : string) : option ((string * json) * string) :=
  match fuel with
  | O => None
  | S fuel =>
      match parse_string s with
      | Some (k, r) =>
          let r := skip_ws r in
          if head_is 58 r then                        (* : *)
            match parse_value fuel (skip_ws (tail r)) with
            | Some (x, r1) => Some ((k, x), r1)
            | None => None
            end
          else None
      | None => None
      end
  end

with parse_members (fuel : nat) (s : string)
  : option (list (string * json) * string) :=
  match fuel with
  | O => None
  | S fuel =>
      if head_is 125 s then Some ([], tail s)         (* } *)
      else if head_is 44 s then                       (* , *)
        match parse_member fuel (skip_ws (tail s)) with
        | Some (m, r1) =>
            match parse_members fuel (skip_ws r1) with
            | Some (ms, r2) => Some (m :: ms, r2)
            | None => None
            end
        | None => None
        end
      else None
  end.

Definition parse (s : string) : option json :=
  match parse_value (S (String.length s)) (skip_ws s) with
  | Some (v, r) =>
      match skip_ws r with
      | EmptyString => Some v
      | String _ _ => None
      end
  | None => None
  end.

End JSONText.

Import JSONText.

(* ===================================================================== *)
(** ** The server *)
(* ===================================================================== *)

Module Server.

(** The members of the SDK's [ErrorCode] that the server raises. *)
Inductive ErrorCode : Type :=
| InvalidParams
| MethodNotFound
| InternalError.

(** An HTTP response as the client presents it: [status] and the parsed
    body [data]. *)
Record response : Type := { status : Z; data : json }.

(** Values that are thrown.  [AxiosError] is what the client rejects
    with: an HTTP response outside 2xx (then [error.response] is set) or
    a transport failure (no response).  [Thrown] is any thrown value that
    is not an [Error] instance. *)
Inductive exn : Type :=
| AxiosError (message : string) (resp : option response)
| Error (message : string)
| McpError (code : ErrorCode) (message : string)
| Thrown (v : json).

(** [axios.isAxiosError(error)]. *)
Definition isAxiosError (e : exn) : bool :=
  match e with
  | AxiosError _ _ => true
  | _ => false
  end.

Definition code_number (c : ErrorCode) : Z :=
  match c with
  | InvalidParams => -32602
  | MethodNotFound => -32601
  | InternalError => -32603
  end.

(** [error instanceof Error ? error.message : fallback].  The SDK's
    [McpError] prefixes the message it is built with. *)
Definition message_or (e : exn) (fallback : string) : string :=
  match e with
  | AxiosError m _ | Error m => m
  | McpError c m => "MCP error " ++ show_number (code_number c) ++ ": " ++ m
  | Thrown _ => fallback
  end.

Record AxiosRequestConfig : Type := {
  headers : list (string * json);
  params : list (string * jsval)
}.

(** A call on [apiClient]. *)
Inductive request : Type :=
| Get (endpoint : string) (config : AxiosRequestConfig)
| Post (endpoint : string) (body : list (string * jsval))
       (config : AxiosRequestConfig).

Definition config_of (r : request) : AxiosRequestConfig :=
  match r with
  | Get _ c | Post _ _ c => c
  end.

Definition endpoint_of (r : request) : string :=
  match r with
  | Get e _ | Post e _ _ => e
  end.

Fixpoint lookup {A : Type} (k : string) (l : list (string * A)) : option A :=
  match l with
  | [] => None
  | (k', v) :: l' => if String.eqb k k' then Some v else lookup k l'
  end.

Definition header (name : string) (r : request) : option json :=
  lookup name (headers (config_of r)).

Definition param (name : string) (r : request) : option jsval :=
  lookup name (params (config_of r)).

(** *** The tool catalog ([ListTools]) *)

Module Registry.

Record PropertySchema : Type := {
  kind : string;
  about : string;
  minimum : option Z;
  maximum : option Z;
  enum : list string;
  maxLength : option Z
}.

Record Tool : Type := {
  name : string;
  description : string;
  properties : list (string * PropertySchema);
  required : list string
}.

Definition text_property (d : string) : PropertySchema :=
  {| kind := "string"; about := d; minimum := None; maximum := None;
     enum := []; maxLength := None |}.

Definition count_property (d : string) (top : Z) : PropertySchema :=
  {| kind := "number"; about := d; minimum := Some 1; maximum := Some top;
     enum := []; maxLength := None |}.

Definition tools : list Tool :=
  [ {| name := "get_user_by_username";
       description := "Get Twitter user information by username";
       properties := [("username", text_property "Twitter username (without @)")];
       required := ["username"] |};
    {| name := "get_user_by_id";
       description := "Get Twitter user information by user ID";
       properties := [("user_id", text_property "Twitter user ID")];
       required := ["user_id"] |};
    {| name := "get_user_tweets";
       description := "Get tweets from a specific user";
       properties :=
         [("username", text_property "Twitter username (without @)");
          ("count", count_property
             "Number of tweets to retrieve (default: 10, max: 100)" 100)];
       required := ["username"] |};
    {| name := "search_tweets";
       description := "Search for tweets using keywords";
       properties :=
         [("query", text_property "Search query for tweets");
          ("count", count_property
             "Number of tweets to retrieve (default: 10, max: 100)" 100);
          ("result_type",
           {| kind := "string"; about := "Type of search results";
              minimum := None; maximum := None;
              enum := ["recent"; "popular"; "mixed"]; maxLength := None |})];
       required := ["query"] |};
    {| name := "get_tweet_by_id";
       description := "Get a specific tweet by its ID";
       properties := [("tweet_id", text_property "Twitter tweet ID")];
       required := ["tweet_id"] |};
    {| name := "get_tweet_replies";
       description := "Get replies to a specific tweet";
       properties :=
         [("tweet_id", text_property "Twitter tweet ID");
          ("count", count_property
             "Number of replies to retrieve (default: 10, max: 100)" 100)];
       required := ["tweet_id"] |};
    {| name := "get_user_followers";
       description := "Get followers of a specific user";
       properties :=
         [("username", text_property "Twitter username (without @)");
          ("count", count_property
             "Number of followers to retrieve (default: 20, max: 100)" 100)];
       required := ["username"] |};
    {| name := "get_user_following";
       description := "Get users that a specific user is following";
       properties :=
         [("username", text_property "Twitter username (without @)");
          ("count", count_property
             "Number of following to retrieve (default: 20, max: 100)" 100)];
       required := ["username"] |};
    {| name := "search_users";
       description := "Search for Twitter users";
       properties :=
         [("query", text_property "Search query for users");
          ("count", count_property
             "Number of users to retrieve (default: 10, max: 50)" 50)];
       required := ["query"] |};
    {| name := "login_user";
       description :=
         "Login to Twitter account for write actions (requires username and password)";
       properties :=
         [("username", text_property "Twitter username or email");
          ("password", text_property "Twitter password")];
       required := ["username"; "password"] |};
    {| name := "create_tweet";
       description := "Create a new tweet (requires login)";
       properties :=
         [("text",
           {| kind := "string"; about := "Tweet text (max 280 characters)";
              minimum := None; maximum := None; enum := [];
              maxLength := Some 280 |});
          ("reply_to", text_property "Tweet ID to reply to (optional)")];
       required := ["text"] |} ].

Fixpoint find (n : string) (l : list Tool) : option Tool :=
  match l with
  | [] => None
  | t :: l' => if String.eqb n (name t) then Some t else find n l'
  end.


(** The [maximum] the catalog declares for a numeric property. *)
Definition maximum_of (n p : string) : option Z :=
  match find n tools with
  | Some t =>
      match lookup p (properties t) with
      | Some ps => maximum ps
      | None => None
      end
  | None => None
  end.

End Registry.

(** The fields of the class that the handlers read or write. *)
Record Session : Type := {
  apiKey : string;
  loginCookie : option json   (* [None] is [null] *)
}.

Inductive outcome (A : Type) : Type :=
| Returned (a : A)
| Threw (e : exn).
Arguments Returned {A} a.
Arguments Threw {A} e.

(** What a call on the client can reject with: an [AxiosError] (an
    HTTP status outside 2xx, then with the response; a timeout or a
    transport failure, then without), another [Error], or a value that
    is not an [Error]. *)
Inductive rejection : Type :=
| AxiosFailure (message : string) (resp : option response)
| OtherError (message : string)
| NonError (v : json).

Inductive reply : Type :=
| Resolved (r : response)
| Rejected (e : rejection).

(** The HTTP client together with the network behind it: what each
    call resolves or rejects with. *)
Definition upstream : Type := request -> reply.

Definition thrown_by (e : rejection) : exn :=
  match e with
  | AxiosFailure message resp => AxiosError message resp
  | OtherError message => Error message
  | NonError v => Thrown v
  end.

(** The result of running a method: what it returned or threw, the
    fields afterwards and the client calls it made. *)
Record run (A : Type) : Type := {
  result : outcome A;
  session : Session;
  issued : list request
}.
Arguments result {A} r.
Arguments session {A} r.
Arguments issued {A} r.

Definition M (A : Type) : Type := upstream -> Session -> run A.

Definition ret {A : Type} (a : A) : M A :=
  fun _ s => {| result := Returned a; session := s; issued := [] |}.

Definition throw {A : Type} (e : exn) : M A :=
  fun _ s => {| result := Threw e; session := s; issued := [] |}.

Definition bind {A B : Type} (m : M A) (f : A -> M B) : M B :=
  fun up s =>
    let r := m up s in
    match result r with
    | Threw e => {| result := Threw e; session := session r; issued := issued r |}
    | Returned a =>
        let r' := f a up (session r) in
        {| result := result r'; session := session r';
           issued := issued r ++ issued r' |}
    end.

Definition try_catch {A : Type} (m : M A) (handler : exn -> M A) : M A :=
  fun up s =>
    let r := m up s in
    match result r with
    | Returned a => r
    | Threw e =>
        let r' := handler e up (session r) in
        {| result := result r'; session := session r';
           issued := issued r ++ issued r' |}
    end.

Definition this : M Session :=
  fun _ s => {| result := Returned s; session := s; issued := [] |}.

Definition set_loginCookie (c : json) : M unit :=
  fun _ s => {| result := Returned tt;
                session := {| apiKey := apiKey s; loginCookie := Some c |};
                issued := [] |}.

(** [await this.apiClient.get(...)] / [.post(...)]. *)
Definition call (r : request) : M response :=
  fun up s =>
    {| result := match up r with
                 | Resolved resp => Returned resp
                 | Rejected e => Threw (thrown_by e)
                 end;
       session := s; issued := [r] |}.

Declare Scope js_scope.
Delimit Scope js_scope with js.
Notation "x <- m ;; k" := (bind m (fun x => k))
  (at level 61, m at next level, right associativity) : js_scope.
Notation "m ;;; k" := (bind m (fun _ => k))
  (at level 61, right associativity) : js_scope.
#[local] Open Scope js_scope.

(** The headers both helpers put on a request. *)
Definition request_headers (s : Session) : list (string * json) :=
  (if negb (String.eqb (apiKey s) "") then [("x-api-key", JStr (apiKey s))] else [])
  ++ (match loginCookie s with
      | Some c => if truthy c then [("Cookie", c)] else []
      | None => []
      end).

(** The [catch] block shared by [makeRequest] and [makePostRequest]. *)
Definition api_error (error : exn) : exn :=
  match error with
  | AxiosError message resp =>
      let statusCode :=
        match resp with
        | Some r => if status r =? 0 then 500 else status r
        | None => 500
        end in
      let errorMessage :=
        match resp with
        | Some r =>
            match data r with
            | JNull => message
            | d => match prop d "error" with
                   | Some e => if truthy e then ToString e else message
                   | None => message
                   end
            end
        | None => message
        end in
      Error ("TwitterAPI.io API error (" ++ show_number statusCode ++ "): "
             ++ errorMessage)
  | _ => error
  end.

Definition makeRequest (endpoint : string) (params : option (list (string * jsval)))
  : M json :=
  try_catch
    (s <- this ;;
     let config := {| headers := request_headers s;
                      params := match params with Some p => p | None => [] end |} in
     response <- call (Get endpoint config) ;;
     ret (data response))
    (fun error => throw (api_error error)).

Definition makePostRequest (endpoint : string) (data_ : list (string * jsval))
  : M json :=
  try_catch
    (s <- this ;;
     let config := {| headers := request_headers s; params := [] |} in
     response <- call (Post endpoint data_ config) ;;
     ret (data response))
    (fun error => throw (api_error error)).

(** [v.k]: a [TypeError] when the receiver is [null]. *)
Definition get (v : json) (k : string) : M (option json) :=
  match v with
  | JNull => throw (Error ("Cannot read properties of null (reading '" ++ k ++ "')"))
  | _ => ret (prop v k)
  end.

Record TextContent : Type := { type : string; text : string }.
Record CallToolResult : Type := { content : list TextContent }.

(** [{ content: [{ type: 'text', text: JSON.stringify(payload, null, 2) }] }],
    the literal every method returns. *)
Definition text_result (payload : json) : CallToolResult :=
  {| content := [ {| type := "text"; text := stringify payload |} ] |}.

Definition getUserByUsername (username : option json) : M CallToolResult :=
  data <- makeRequest "/user/info" (Some [("userName", of_arg username)]) ;;
  ret (text_result data).

Definition getUserById (userId : option json) : M CallToolResult :=
  data <- makeRequest "/user/info" (Some [("user_id", of_arg userId)]) ;;
  ret (text_result data).

Definition getUserTweets (username count : option json) : M CallToolResult :=
  let count := default count (JNum 10) in
  data <- makeRequest "/user/last_tweets"
            (Some [("userName", of_arg username); ("count", Math_min count 100)]) ;;
  ret (text_result data).

Definition searchTweets (query count resultType : option json) : M CallToolResult :=
  let count := default count (JNum 10) in
  let resultType := default resultType (JStr "recent") in
  data <- makeRequest "/tweet/advanced_search"
            (Some [("query", of_arg query); ("count", Math_min count 100);
                   ("result_type", Val resultType)]) ;;
  ret (text_result data).

Definition getTweetById (tweetId : option json) : M CallToolResult :=
  data <- makeRequest "/tweets" (Some [("tweet_id", of_arg tweetId)]) ;;
  ret (text_result data).

Definition getTweetReplies (tweetId count : option json) : M CallToolResult :=
  let count := default count (JNum 10) in
  data <- makeRequest "/tweet/replies"
            (Some [("id", of_arg tweetId); ("count", Math_min count 100)]) ;;
  ret (text_result data).

Definition getUserFollowers (username count : option json) : M CallToolResult :=
  let count := default count (JNum 20) in
  data <- makeRequest "/user/followers"
            (Some [("userName", of_arg username); ("count", Math_min count 100)]) ;;
  ret (text_result data).

Definition getUserFollowing (username count : option json) : M CallToolResult :=
  let count := default count (JNum 20) in
  data <- makeRequest "/user/followings"
            (Some [("userName", of_arg username); ("count", Math_min count 100)]) ;;
  ret (text_result data).

Definition searchUsers (query count : option json) : M CallToolResult :=
  let count := default count (JNum 10) in
  data <- makeRequest "/user/search"
            (Some [("query", of_arg query); ("count", Math_min count 50)]) ;;
  ret (text_result data).

Definition loginUser (username password : option json) : M CallToolResult :=
  try_catch
    (loginData <- makePostRequest "/user_login_v2"
                    [("userName", of_arg username); ("password", of_arg password)] ;;
     cookie <- get loginData "cookie" ;;
     match cookie with
     | Some c => if truthy c then set_loginCookie c else ret tt
     | None => ret tt
     end ;;;
     user <- get loginData "user" ;;
     ret (text_result
            (JObj [("success", JBool true);
                   ("message", JStr "Login successful");
                   ("user", or_else user (JObj []))])))
    (fun error =>
       ret (text_result
              (JObj [("success", JBool false);
                     ("error", JStr (message_or error "Login failed"))]))).

Definition createTweet (text replyTo : option json) : M CallToolResult :=
  s <- this ;;
  if negb (truthy_opt (loginCookie s)) then
    throw (Error "Must login first before creating tweets")
  else
    let tweetData :=
      ([("text", of_arg text)]
       ++ (if truthy_opt replyTo then [("reply_to", of_arg replyTo)] else []))%list in
    data <- makePostRequest "/create_tweet_v2" tweetData ;;
    ret (text_result data).

(** The [CallToolRequestSchema] handler: [name] and [arguments] of the
    request; [args = None] is a request without [arguments]. *)
Definition CallTool (name : string) (args : option (list (string * json)))
  : M CallToolResult :=
  try_catch
    (match args with
     | None => throw (McpError InvalidParams "Missing arguments")
     | Some args =>
         if String.eqb name "get_user_by_username" then
           getUserByUsername (assoc "username" args)
         else if String.eqb name "get_user_by_id" then
           getUserById (assoc "user_id" args)
         else if String.eqb name "get_user_tweets" then
           getUserTweets (assoc "username" args) (assoc "count" args)
         else if String.eqb name "search_tweets" then
           searchTweets (assoc "query" args) (assoc "count" args)
                        (assoc "result_type" args)
         else if String.eqb name "get_tweet_by_id" then
           getTweetById (assoc "tweet_id" args)
         else if String.eqb name "get_tweet_replies" then
           getTweetReplies (assoc "tweet_id" args) (assoc "count" args)
         else if String.eqb name "get_user_followers" then
           getUserFollowers (assoc "username" args) (assoc "count" args)
         else if String.eqb name "get_user_following" then
           getUserFollowing (assoc "username" args) (assoc "count" args)
         else if String.eqb name "search_users" then
           searchUsers (assoc "query" args) (assoc "count" args)
         else if String.eqb name "login_user" then
           loginUser (assoc "username" args) (assoc "password" args)
         else if String.eqb name "create_tweet" then
           createTweet (assoc "text" args) (assoc "reply_to" args)
         else
           throw (McpError MethodNotFound ("Unknown tool: " ++ name))
     end)
    (fun error =>
       match error with
       | McpError _ _ => throw error
       | _ =>
           let message := message_or error "Unknown error occurred" in
           throw (McpError InternalError ("TwitterAPI.io error: " ++ message))
       end).

(** The constructor: the key read from the environment, no cookie. *)
Definition new (key : string) : Session :=
  {| apiKey := key; loginCookie := None |}.

(** One [tools/call] request together with the behaviour of the network
    while it is served. *)
Record invocation : Type := {
  tool : string;
  arguments : option (list (string * json));
  network : upstream
}.

Definition invoke (i : invocation) (s : Session) : run CallToolResult :=
  CallTool (tool i) (arguments i) (network i) s.

(** The session after serving a sequence of requests, one at a time. *)
Fixpoint serve (calls : list invocation) (s : Session) : Session :=
  match calls with
  | [] => s
  | i :: rest => serve rest (session (invoke i s))
  end.

(** The sessions a server process can be in. *)
Definition reachable (s : Session) : Prop :=
  exists key calls, s = serve calls (new key).

End Server.

(* ===================================================================== *)
(** ** Vocabulary of the properties *)
(* ===================================================================== *)

Import Server.
#[local] Open Scope js_scope.

(** The GET and POST calls the helpers make from a session [s]. *)
Definition get_request (s : Session) (endpoint : string)
  (ps : list (string * jsval)) : request :=
  Get endpoint {| headers := request_headers s; params := ps |}.

Definition post_request (s : Session) (endpoint : string)
  (body : list (string * jsval)) : request :=
  Post endpoint body {| headers := request_headers s; params := [] |}.

(** The call [loginUser] makes. *)
Definition login_request (s : Session) (args : list (string * json)) : request :=
  post_request s "/user_login_v2"
    [("userName", of_arg (assoc "username" args));
     ("password", of_arg (assoc "password" args))].

(** The body [createTweet] posts. *)
Definition tweet_body (args : list (string * json)) : list (string * jsval) :=
  ([("text", of_arg (assoc "text" args))]
   ++ (if truthy_opt (assoc "reply_to" args)
       then [("reply_to", of_arg (assoc "reply_to" args))] else []))%list.

(** The outcome of a helper, from the reply of the network. *)
Definition helper_result (r : reply) : outcome json :=
  match r with
  | Resolved resp => Returned (data resp)
  | Rejected e => Threw (api_error (thrown_by e))
  end.

(** What the handler throws when the helper of a tool other than
    [login_user] failed. *)
Definition handler_error (e : rejection) : exn :=
  McpError InternalError
    ("TwitterAPI.io error: "
     ++ message_or (api_error (thrown_by e)) "Unknown error occurred").

Definition tool_result (r : reply) : outcome CallToolResult :=
  match r with
  | Resolved resp => Returned (text_result (data resp))
  | Rejected e => Threw (handler_error e)
  end.

(** The payloads [loginUser] returns. *)
Definition login_succeeded (loginData : json) : json :=
  JObj [("success", JBool true);
        ("message", JStr "Login successful");
        ("user", or_else (prop loginData "user") (JObj []))].

Definition login_failed (message : string) : json :=
  JObj [("success", JBool false); ("error", JStr message)].

(** The session holds a cookie, as [createTweet] and the helpers test it. *)
Definition authenticated (s : Session) : bool := truthy_opt (loginCookie s).

(** The stored cookie, when there is one, is a truthy value. *)
Definition cookie_ok (s : Session) : Prop :=
  match loginCookie s with
  | Some c => truthy c = true
  | None => True
  end.

(** The cookie a [login_user] invocation obtains: the truthy [cookie]
    member of the body of a 2xx response. *)
Definition cookie_obtained (i : invocation) (s : Session) : option json :=
  if String.eqb (tool i) "login_user" then
    match arguments i with
    | Some args =>
        match network i (login_request s args) with
        | Resolved resp =>
            match prop (data resp) "cookie" with
            | Some c => if truthy c then Some c else None
            | None => None
            end
        | Rejected _ => None
        end
    | None => None
    end
  else None.

(** No invocation of the sequence obtains a cookie. *)
Fixpoint no_cookie_obtained (calls : list invocation) (s : Session) : Prop :=
  match calls with
  | [] => True
  | i :: rest =>
      cookie_obtained i s = None /\ no_cookie_obtained rest (session (invoke i s))
  end.

(** The error code of a failed invocation. *)
Definition error_code {A : Type} (o : outcome A) : option ErrorCode :=
  match o with
  | Threw (McpError c _) => Some c
  | _ => None
  end.

(** The six tools that take a [count], with the default and the cap
    applied by their methods. *)
Definition count_tools : list (string * (Z * Z)) :=
  [ ("get_user_tweets", (10, 100));
    ("search_tweets", (10, 100));
    ("get_tweet_replies", (10, 100));
    ("get_user_followers", (20, 100));
    ("get_user_following", (20, 100));
    ("search_users", (10, 50)) ].

(** The nine read tools. *)
Definition read_tools : list string :=
  [ "get_user_by_username"; "get_user_by_id"; "get_user_tweets";
    "search_tweets"; "get_tweet_by_id"; "get_tweet_replies";
    "get_user_followers"; "get_user_following"; "search_users" ].

(** The names the [switch] has a case for. *)
Definition known_tools : list string :=
  (read_tools ++ ["login_user"; "create_tweet"])%list.

(** The [count] parameter of the single request an invocation issued. *)
Definition forwarded_count (r : run CallToolResult) : option jsval :=
  match issued r with
  | [rq] => param "count" rq
  | _ => None
  end.

(** Sample networks and sessions for the concrete runs below. *)
Definition ok_with (body : json) : upstream :=
  fun _ => Resolved {| status := 200; data := body |}.

Definition unauthorized : upstream :=
  fun _ =>
    Rejected (AxiosFailure "Request failed with status code 401"
                (Some {| status := 401;
                         data := JObj [("error", JStr "Unauthorized")] |})).

Definition unreachable : upstream :=
  fun _ => Rejected (AxiosFailure "connect ECONNREFUSED" None).

(** *** Vocabulary of the JSON text *)

(** The text of the elements after the first one of an array, and of
    the members after the first one of an object, as [Serialize] lays
    them out. *)
Fixpoint elements_text (indent : string) (l : list json) : string :=
  match l with
  | [] => ""
  | y :: l' => "," ++ nl ++ indent ++ Serialize indent y ++ elements_text indent l'
  end.

Fixpoint members_text (indent : string) (l : list (string * json)) : string :=
  match l with
  | [] => ""
  | (k, y) :: l' =>
      "," ++ nl ++ indent ++ QuoteJSONString k ++ ": " ++ Serialize indent y
      ++ members_text indent l'
  end.

(** A run of white space. *)
Fixpoint all_ws (s : string) : bool :=
  match s with
  | EmptyString => true
  | String c r => is_ws c && all_ws r
  end.

(** The characters a value can start with. *)
Definition value_start (c : ascii) : bool :=
  let n := nat_of_ascii c in
  ((n =? 110) || (n =? 116) || (n =? 102) || (n =? 34) || (n =? 91)
   || (n =? 123) || (n =? 45) || ((48 <=? n) && (n <=? 57)))%nat.

Definition starts_value (s : string) : Prop :=
  match s with
  | String c _ => value_start c = true
  | EmptyString => False
  end.

(** The text does not go on with a digit. *)
Definition no_digit_head (s : string) : Prop :=
  match s with
  | String c _ => digit_of c = None
  | EmptyString => True
  end.

(** The literal of an integer starts with a digit or a minus sign. *)
Definition number_start (c : ascii) : bool :=
  let n := nat_of_ascii c in
  ((n =? 45) || ((48 <=? n) && (n <=? 57)))%nat.

(** With fuel for the length of the text, each parser reads back what
    the serializer laid out. *)
Definition reads_back (f : nat) : Prop :=
  (forall v indent rest,
      (String.length (Serialize indent v) <= f)%nat ->
      all_ws indent = true -> no_digit_head rest ->
      parse_value f (Serialize indent v ++ rest) = Some (v, rest))
  /\ (forall xs indent stepback rest,
        (String.length (elements_text indent xs) < f)%nat ->
        all_ws indent = true -> all_ws stepback = true ->
        parse_elements f
          (skip_ws (elements_text indent xs ++ nl ++ stepback ++ "]" ++ rest))
        = Some (xs, rest))
  /\ (forall k x indent rest,
        (String.length (Serialize indent x) < f)%nat ->
        all_ws indent = true -> no_digit_head rest ->
        parse_member f (QuoteJSONString k ++ ": " ++ Serialize indent x ++ rest)
        = Some ((k, x), rest))
  /\ (forall ms indent stepback rest,
        (String.length (members_text indent ms) < f)%nat ->
        all_ws indent = true -> all_ws stepback = true ->
        parse_members f
          (skip_ws (members_text indent ms ++ nl ++ stepback ++ "}" ++ rest))
        = Some (ms, rest)).


(* ===================================================================== *)
(** ** Start-up and routing *)
(* ===================================================================== *)

(** The constructor of [TwitterAPIMCPServer]: what it reads from the
    environment, the configuration it creates the HTTP client with and
    what it prints. *)
Module Startup.

(** [process.env]: a variable is unset or holds a string. *)
Definition environment : Type := string -> option string.

(** [a || b] for values that are strings or [undefined]. *)
Definition or_string (a b : option string) : option string :=
  match a with
  | Some x => if String.eqb x "" then b else a
  | None => b
  end.

Inductive console_line : Type :=
| console_error (message : string)
| console_log (message value : string).

Record AxiosRequestConfig : Type := {
  baseURL : string;
  timeout : Z;
  headers : list (string * string);
  httpsAgent : option string;   (* the URL the [HttpsProxyAgent] is built from *)
  proxy : option bool           (* [None] when the field is not set *)
}.

Record instance : Type := {
  fields : Session;
  axiosConfig : AxiosRequestConfig;
  console : list console_line
}.

Definition constructor (env : environment) : instance :=
  let apiKey :=
    match or_string (env "TWITTERAPI_API_KEY") (Some "") with
    | Some k => k
    | None => ""
    end in
  let warning :=
    if String.eqb apiKey ""
    then [console_error "Warning: TWITTERAPI_API_KEY environment variable not set"]
    else [] in
  let proxyUrl :=
    or_string (or_string (env "PROXY_URL") (env "HTTP_PROXY")) (env "HTTPS_PROXY") in
  let proxied :=
    match proxyUrl with
    | Some u => negb (String.eqb u "")
    | None => false
    end in
  {| fields := {| apiKey := apiKey; loginCookie := None |};
     axiosConfig :=
       {| baseURL := "https://api.twitterapi.io/twitter";
          timeout := 30000;
          headers := [("Content-Type", "application/json");
                      ("User-Agent", "TwitterAPI-MCP-Server/1.0.0")];
          httpsAgent := if proxied then proxyUrl else None;
          proxy := if proxied then Some false else None |};
     console :=
       (warning
        ++ (if proxied
            then match proxyUrl with
                 | Some u => [console_log "Using proxy:" u]
                 | None => []
                 end
            else []))%list |}.

End Startup.

(** An environment variable that is unset or empty. *)
Definition unset_or_empty (v : option string) : Prop :=
  v = None \/ v = Some "".

Inductive method : Type := GET | POST.

Definition method_of (r : request) : method :=
  match r with
  | Get _ _ => GET
  | Post _ _ _ => POST
  end.


(** The method and path each tool calls. *)
Definition routes : list (string * (method * string)) :=
  [ ("get_user_by_username", (GET, "/user/info"));
    ("get_user_by_id", (GET, "/user/info"));
    ("get_user_tweets", (GET, "/user/last_tweets"));
    ("search_tweets", (GET, "/tweet/advanced_search"));
    ("get_tweet_by_id", (GET, "/tweets"));
    ("get_tweet_replies", (GET, "/tweet/replies"));
    ("get_user_followers", (GET, "/user/followers"));
    ("get_user_following", (GET, "/user/followings"));
    ("search_users", (GET, "/user/search"));
    ("login_user", (POST, "/user_login_v2"));
    ("create_tweet", (POST, "/create_tweet_v2")) ].

(** The [minimum] the catalog declares for a numeric property. *)
Definition minimum_of (n p : string) : option Z :=
  match Registry.find n Registry.tools with
  | Some t =>
      match lookup p (Registry.properties t) with
      | Some ps => Registry.minimum ps
      | None => None
      end
  | None => None
  end.


(** The [maxLength] the catalog declares for a property. *)
Definition maxLength_of (n p : string) : option Z :=
  match Registry.find n Registry.tools with
  | Some t =>
      match lookup p (Registry.properties t) with
      | Some ps => Registry.maxLength ps
      | None => None
      end
  | None => None
  end.

(** A result that is one text block. *)
Definition one_text (t : string) : CallToolResult :=
  {| content := [ {| type := "text"; text := t |} ] |}.

(** A network that rejects with something other than an [AxiosError]. *)
Definition broken_with (e : rejection) : upstream := fun _ => Rejected e.

(* ===================================================================== *)
(** ** How each tool runs *)
(* ===================================================================== *)

#[local] Arguments text_result : simpl never.
#[local] Arguments api_error : simpl never.
#[local] Arguments message_or : simpl never.
#[local] Arguments request_headers : simpl never.

Section Helpers.

Variable up : upstream.
Variable s : Session.

Lemma makeRequest_run endpoint ps :
  makeRequest endpoint (Some ps) up s =
  {| result := helper_result (up (get_request s endpoint ps));
     session := s;
     issued := [get_request s endpoint ps] |}.
Proof.
  unfold makeRequest, try_catch, bind, this, call, ret, throw, get_request; simpl.
  destruct (up _); reflexivity.
Qed.

Lemma makePostRequest_run endpoint body :
  makePostRequest endpoint body up s =
  {| result := helper_result (up (post_request s endpoint body));
     session := s;
     issued := [post_request s endpoint body] |}.
Proof.
  unfold makePostRequest, try_catch, bind, this, call, ret, throw, post_request; simpl.
  destruct (up _); reflexivity.
Qed.

End Helpers.

Ltac unfold_tools :=
  unfold CallTool, try_catch, bind, ret, throw; simpl;
  unfold getUserByUsername, getUserById, getUserTweets, searchTweets,
    getTweetById, getTweetReplies, getUserFollowers, getUserFollowing,
    searchUsers, bind, ret; simpl.

Ltac finish_run up :=
  rewrite makeRequest_run; simpl;
  destruct (up _) as [resp | [message resp | message | v]]; reflexivity.

Lemma read_tool_run name args :
  In name read_tools ->
  exists endpoint ps, forall up s,
    CallTool name (Some args) up s =
    {| result := tool_result (up (get_request s endpoint ps));
       session := s;
       issued := [get_request s endpoint ps] |}.
Proof.
  intros H. simpl in H.
  repeat (destruct H as [<- | H]); try contradiction;
    unfold_tools;
    match goal with
    | |- context [makeRequest ?ep (Some ?ps)] => exists ep, ps
    end;
    intros up s; finish_run up.
Qed.

Lemma missing_arguments_run name up s :
  CallTool name None up s =
  {| result := Threw (McpError InvalidParams "Missing arguments");
     session := s; issued := [] |}.
Proof. reflexivity. Qed.

Lemma tool_cases name :
  In name read_tools \/ name = "login_user" \/ name = "create_tweet"
  \/ ~ In name known_tools.
Proof.
  destruct (in_dec string_dec name known_tools) as [H | H]; [ | tauto ].
  unfold known_tools in H. apply in_app_or in H. destruct H as [H | H]; [ tauto | ].
  destruct H as [<- | [<- | []]]; auto.
Qed.

Lemma eqb_absent name lit (P : Prop) :
  ~ (lit = name \/ P) -> String.eqb name lit = false /\ ~ P.
Proof.
  intros H. split.
  - apply String.eqb_neq. intros ->. apply H. left. reflexivity.
  - intros H'. apply H. right. exact H'.
Qed.

Lemma unknown_tool_run name args up s :
  ~ In name known_tools ->
  CallTool name (Some args) up s =
  {| result := Threw (McpError MethodNotFound ("Unknown tool: " ++ name));
     session := s; issued := [] |}.
Proof.
  intros H. unfold known_tools, read_tools in H. simpl in H.
  unfold CallTool, try_catch.
  repeat match type of H with
         | ~ (_ \/ _) => apply eqb_absent in H; destruct H as [-> H]
         end.
  reflexivity.
Qed.

(** Running [bind] and [try_catch] once the first computation is known. *)
Lemma bind_returned {A B} (m : M A) (f : A -> M B) up s a s1 l :
  m up s = {| result := Returned a; session := s1; issued := l |} ->
  bind m f up s =
  {| result := result (f a up s1); session := session (f a up s1);
     issued := (l ++ issued (f a up s1))%list |}.
Proof. intros H. unfold bind. rewrite H. reflexivity. Qed.

Lemma bind_threw {A B} (m : M A) (f : A -> M B) up s e s1 l :
  m up s = {| result := Threw e; session := s1; issued := l |} ->
  bind m f up s = {| result := Threw e; session := s1; issued := l |}.
Proof. intros H. unfold bind. rewrite H. reflexivity. Qed.

Lemma try_catch_returned {A} (m : M A) h up s a s1 l :
  m up s = {| result := Returned a; session := s1; issued := l |} ->
  try_catch m h up s = {| result := Returned a; session := s1; issued := l |}.
Proof. intros H. unfold try_catch. rewrite H. reflexivity. Qed.

Lemma try_catch_threw {A} (m : M A) h up s e s1 l :
  m up s = {| result := Threw e; session := s1; issued := l |} ->
  try_catch m h up s =
  {| result := result (h e up s1); session := session (h e up s1);
     issued := (l ++ issued (h e up s1))%list |}.
Proof. intros H. unfold try_catch. rewrite H. reflexivity. Qed.

Ltac dispatch :=
  unfold CallTool; cbv beta iota delta [String.eqb Ascii.eqb Bool.eqb].

Lemma loginUser_rejected username password up s e :
  let rq := post_request s "/user_login_v2"
              [("userName", of_arg username); ("password", of_arg password)] in
  up rq = Rejected e ->
  loginUser username password up s =
  {| result :=
       Returned (text_result
                   (login_failed (message_or (api_error (thrown_by e)) "Login failed")));
     session := s;
     issued := [rq] |}.
Proof.
  intros rq H. unfold loginUser.
  erewrite try_catch_threw.
  2:{ erewrite bind_threw; [ reflexivity | ].
      rewrite makePostRequest_run. fold rq. rewrite H. reflexivity. }
  reflexivity.
Qed.

Lemma loginUser_null username password up s resp :
  let rq := post_request s "/user_login_v2"
              [("userName", of_arg username); ("password", of_arg password)] in
  up rq = Resolved resp ->
  data resp = JNull ->
  loginUser username password up s =
  {| result :=
       Returned (text_result
                   (login_failed "Cannot read properties of null (reading 'cookie')"));
     session := s;
     issued := [rq] |}.
Proof.
  intros rq H Hnull. unfold loginUser.
  erewrite try_catch_threw.
  2:{ erewrite bind_returned.
      2:{ rewrite makePostRequest_run. fold rq. rewrite H. reflexivity. }
      rewrite Hnull. reflexivity. }
  reflexivity.
Qed.

Lemma loginUser_resolved username password up s resp :
  let rq := post_request s "/user_login_v2"
              [("userName", of_arg username); ("password", of_arg password)] in
  up rq = Resolved resp ->
  data resp <> JNull ->
  loginUser username password up s =
  {| result := Returned (text_result (login_succeeded (data resp)));
     session :=
       match prop (data resp) "cookie" with
       | Some c =>
           if truthy c then {| apiKey := apiKey s; loginCookie := Some c |} else s
       | None => s
       end;
     issued := [rq] |}.
Proof.
  intros rq H Hnull. unfold loginUser.
  erewrite try_catch_returned; [ reflexivity | ].
  erewrite bind_returned.
  2:{ rewrite makePostRequest_run. fold rq. rewrite H. reflexivity. }
  unfold helper_result. 
  assert (G : forall k, get (data resp) k = ret (prop (data resp) k)).
  { intros k. destruct (data resp); try reflexivity. contradiction. }
  rewrite !G. unfold login_succeeded.
  destruct (prop (data resp) "cookie") as [c | ]; [ destruct (truthy c) eqn:T | ];
    unfold bind, ret; simpl; rewrite ?T; reflexivity.
Qed.

Lemma login_rejected_run args up s e :
  up (login_request s args) = Rejected e ->
  CallTool "login_user" (Some args) up s =
  {| result :=
       Returned (text_result
                   (login_failed (message_or (api_error (thrown_by e)) "Login failed")));
     session := s;
     issued := [login_request s args] |}.
Proof.
  intros H. dispatch.
  erewrite try_catch_returned; [ reflexivity | ].
  apply loginUser_rejected. exact H.
Qed.

Lemma login_null_run args up s resp :
  up (login_request s args) = Resolved resp ->
  data resp = JNull ->
  CallTool "login_user" (Some args) up s =
  {| result :=
       Returned (text_result
                   (login_failed "Cannot read properties of null (reading 'cookie')"));
     session := s;
     issued := [login_request s args] |}.
Proof.
  intros H Hnull. dispatch.
  erewrite try_catch_returned; [ reflexivity | ].
  apply (loginUser_null _ _ _ _ resp); assumption.
Qed.

Lemma login_resolved_run args up s resp :
  up (login_request s args) = Resolved resp ->
  data resp <> JNull ->
  CallTool "login_user" (Some args) up s =
  {| result := Returned (text_result (login_succeeded (data resp)));
     session :=
       match prop (data resp) "cookie" with
       | Some c =>
           if truthy c then {| apiKey := apiKey s; loginCookie := Some c |} else s
       | None => s
       end;
     issued := [login_request s args] |}.
Proof.
  intros H Hnull. dispatch.
  erewrite try_catch_returned; [ reflexivity | ].
  apply (loginUser_resolved _ _ _ _ resp); assumption.
Qed.

Lemma create_tweet_guarded_run args up s :
  authenticated s = false ->
  CallTool "create_tweet" (Some args) up s =
  {| result :=
       Threw (McpError InternalError
                "TwitterAPI.io error: Must login first before creating tweets");
     session := s; issued := [] |}.
Proof.
  intros H. unfold authenticated in H.
  unfold CallTool, try_catch, bind, ret, throw; simpl.
  unfold createTweet, bind, this; simpl. rewrite H. reflexivity.
Qed.

Lemma create_tweet_run args up s :
  authenticated s = true ->
  CallTool "create_tweet" (Some args) up s =
  {| result := tool_result (up (post_request s "/create_tweet_v2" (tweet_body args)));
     session := s;
     issued := [post_request s "/create_tweet_v2" (tweet_body args)] |}.
Proof.
  intros H. unfold authenticated in H.
  unfold CallTool, try_catch, bind, ret, throw; simpl.
  unfold createTweet, bind, this; simpl. rewrite H. simpl.
  rewrite makePostRequest_run. fold (tweet_body args). simpl.
  destruct (up _) as [resp | [message resp | message | v]]; reflexivity.
Qed.

(* ===================================================================== *)
(** ** The session across invocations *)
(* ===================================================================== *)

Lemma read_tool_not_login name : In name read_tools -> String.eqb name "login_user" = false.
Proof.
  intros H. simpl in H.
  repeat (destruct H as [<- | H]); try contradiction; reflexivity.
Qed.

(** One invocation changes the session only by storing the cookie it
    obtained. *)
Lemma session_step i s :
  session (invoke i s) =
  match cookie_obtained i s with
  | Some c => {| apiKey := apiKey s; loginCookie := Some c |}
  | None => s
  end.
Proof.
  destruct i as [name [args | ] up]; unfold invoke, cookie_obtained;
    cbn [tool arguments network].
  2:{ rewrite missing_arguments_run. simpl. destruct (String.eqb name _); reflexivity. }
  destruct (tool_cases name) as [H | [-> | [-> | H]]].
  - rewrite (read_tool_not_login _ H).
    destruct (read_tool_run name args H) as (ep & ps & E). rewrite E. reflexivity.
  - simpl. destruct (up (login_request s args)) as [resp | e] eqn:U.
    + destruct (data resp) eqn:D;
        [ rewrite (login_null_run _ _ _ _ U D); reflexivity
        | rewrite (login_resolved_run _ _ _ _ U) by (rewrite D; discriminate);
          rewrite D; simpl; try reflexivity .. ].
      destruct (assoc "cookie" members) as [c | ]; [ destruct (truthy c) | ];
        reflexivity.
    + rewrite (login_rejected_run _ _ _ _ U). reflexivity.
  - simpl. destruct (authenticated s) eqn:A.
    + rewrite (create_tweet_run _ _ _ A). reflexivity.
    + rewrite (create_tweet_guarded_run _ _ _ A). reflexivity.
  - rewrite (unknown_tool_run _ _ _ _ H).
    assert (N : String.eqb name "login_user" = false).
    { apply String.eqb_neq. intros ->. apply H. unfold known_tools.
      apply in_or_app. right. left. reflexivity. }
    rewrite N. reflexivity.
Qed.

Lemma cookie_obtained_truthy i s c : cookie_obtained i s = Some c -> truthy c = true.
Proof.
  unfold cookie_obtained.
  destruct (String.eqb _ _); [ | discriminate ].
  destruct (arguments i) as [args | ]; [ | discriminate ].
  destruct (network i _) as [resp | e]; [ | discriminate ].
  destruct (prop _ _) as [c' | ]; [ | discriminate ].
  destruct (truthy c') eqn:T; [ | discriminate ].
  intros [= <-]. exact T.
Qed.

Lemma cookie_ok_step i s : cookie_ok s -> cookie_ok (session (invoke i s)).
Proof.
  intros H. rewrite session_step.
  destruct (cookie_obtained i s) as [c | ] eqn:E; [ | exact H ].
  unfold cookie_ok. simpl. eapply cookie_obtained_truthy. exact E.
Qed.

Lemma cookie_ok_serve calls : forall s, cookie_ok s -> cookie_ok (serve calls s).
Proof.
  induction calls as [ | i rest IH]; intros s H; simpl.
  - exact H.
  - apply IH. apply cookie_ok_step. exact H.
Qed.

Lemma reachable_cookie_ok s : reachable s -> cookie_ok s.
Proof.
  intros (key & calls & ->). apply cookie_ok_serve. exact I.
Qed.

Lemma authenticated_step i s :
  authenticated s = true -> authenticated (session (invoke i s)) = true.
Proof.
  intros H. rewrite session_step.
  destruct (cookie_obtained i s) as [c | ] eqn:E; [ | exact H ].
  unfold authenticated. simpl. eapply cookie_obtained_truthy. exact E.
Qed.

Lemma no_cookie_obtained_serve calls :
  forall s, no_cookie_obtained calls s -> serve calls s = s.
Proof.
  induction calls as [ | i rest IH]; intros s H; simpl.
  - reflexivity.
  - destruct H as [H1 H2]. rewrite (IH _ H2). rewrite session_step, H1. reflexivity.
Qed.

(** Every request an invocation issues carries the headers computed
    from the session it started in. *)
Lemma issued_headers name args up s rq :
  In rq (issued (CallTool name args up s)) ->
  headers (config_of rq) = request_headers s.
Proof.
  destruct args as [args | ].
  2:{ rewrite missing_arguments_run. simpl. contradiction. }
  destruct (tool_cases name) as [H | [-> | [-> | H]]].
  - destruct (read_tool_run name args H) as (ep & ps & E). rewrite E. simpl.
    intros [<- | []]. reflexivity.
  - assert (G : issued (CallTool "login_user" (Some args) up s) = [login_request s args]).
    { destruct (up (login_request s args)) as [resp | e] eqn:U.
      - destruct (data resp) eqn:D;
          [ rewrite (login_null_run _ _ _ _ U D); reflexivity
          | rewrite (login_resolved_run _ _ _ _ U) by (rewrite D; discriminate);
            reflexivity .. ].
      - rewrite (login_rejected_run _ _ _ _ U). reflexivity. }
    rewrite G. intros [<- | []]. reflexivity.
  - destruct (authenticated s) eqn:A.
    + rewrite (create_tweet_run _ _ _ A). simpl. intros [<- | []]. reflexivity.
    + rewrite (create_tweet_guarded_run _ _ _ A). simpl. contradiction.
  - rewrite (unknown_tool_run _ _ _ _ H). simpl. contradiction.
Qed.

Lemma lookup_cookie_header s :
  cookie_ok s -> lookup "Cookie" (request_headers s) = loginCookie s.
Proof.
  unfold cookie_ok, request_headers. intros H.
  destruct (negb (String.eqb (apiKey s) "")); simpl;
    destruct (loginCookie s) as [c | ]; try reflexivity;
    rewrite H; reflexivity.
Qed.

Lemma lookup_api_key_header s :
  lookup "x-api-key" (request_headers s) =
  if String.eqb (apiKey s) "" then None else Some (JStr (apiKey s)).
Proof.
  unfold request_headers.
  destruct (String.eqb (apiKey s) ""); simpl; [ | reflexivity ].
  destruct (loginCookie s) as [c | ]; [ destruct (truthy c) | ]; reflexivity.
Qed.

(* ===================================================================== *)
(** ** Reading back what [JSON.stringify] wrote *)
(* ===================================================================== *)

Lemma append_assoc (a b c : string) : (a ++ b) ++ c = a ++ b ++ c.
Proof. induction a as [ | x a IH]; simpl; [ | rewrite IH ]; reflexivity. Qed.

Lemma append_empty_r (a : string) : a ++ "" = a.
Proof. induction a as [ | x a IH]; simpl; [ | rewrite IH ]; reflexivity. Qed.

Lemma length_append (a b : string) :
  String.length (a ++ b) = (String.length a + String.length b)%nat.
Proof. induction a as [ | x a IH]; simpl; [ | rewrite IH ]; reflexivity. Qed.

Lemma skip_ws_all_ws w s : all_ws w = true -> skip_ws (w ++ s) = skip_ws s.
Proof.
  induction w as [ | c w IH]; simpl; intros H; [ reflexivity | ].
  apply andb_true_iff in H. destruct H as [H1 H2]. rewrite H1. apply IH. exact H2.
Qed.

Lemma all_ws_app a b : all_ws a = true -> all_ws b = true -> all_ws (a ++ b) = true.
Proof.
  induction a as [ | c a IH]; simpl; intros Ha Hb; [ exact Hb | ].
  apply andb_true_iff in Ha. destruct Ha as [H1 H2]. rewrite H1. apply IH; assumption.
Qed.

(** What a character that starts a value is not. *)
Lemma value_start_codes c :
  value_start c = true ->
  is_ws c = false
  /\ (nat_of_ascii c =? 93)%nat = false
  /\ (nat_of_ascii c =? 125)%nat = false
  /\ (nat_of_ascii c =? 44)%nat = false.
Proof.
  destruct c as [[|] [|] [|] [|] [|] [|] [|] [|]]; intros H;
    first [ discriminate H | repeat split; reflexivity ].
Qed.

Lemma skip_ws_starts_value s : starts_value s -> skip_ws s = s.
Proof.
  destruct s as [ | c r]; simpl; [ contradiction | ]. intros H.
  destruct (value_start_codes c H) as (W & _). rewrite W. reflexivity.
Qed.


(** *** String literals *)

Lemma parse_chars_escape_char c s :
  parse_chars (escape_char c ++ s) = cons_char c (parse_chars s).
Proof.
  destruct c as [[|] [|] [|] [|] [|] [|] [|] [|]]; reflexivity.
Qed.

Lemma parse_chars_escape t rest :
  parse_chars (escape t ++ String dq rest) = Some (t, rest).
Proof.
  induction t as [ | c t IH].
  - reflexivity.
  - change (escape (String c t)) with (escape_char c ++ escape t).
    rewrite append_assoc, parse_chars_escape_char, IH. reflexivity.
Qed.

Lemma parse_string_quote t rest :
  parse_string (QuoteJSONString t ++ rest) = Some (t, rest).
Proof.
  unfold QuoteJSONString.
  change (String dq (escape t ++ String dq "") ++ rest)
    with (String dq ((escape t ++ String dq "") ++ rest)).
  rewrite append_assoc. apply parse_chars_escape.
Qed.

(** *** Numbers *)

Lemma parse_digits_uint u rest :
  no_digit_head rest ->
  parse_digits (NilEmpty.string_of_uint u ++ rest) = (u, rest).
Proof.
  intros H. induction u as [ | u IH | u IH | u IH | u IH | u IH | u IH
                             | u IH | u IH | u IH | u IH ];
    simpl.
  1:{ destruct rest as [ | c r]; simpl in *; [ reflexivity | rewrite H; reflexivity ]. }
  all: rewrite IH; reflexivity.
Qed.

Lemma number_of_to_int n : number_of (Z.to_int n) = Some n.
Proof.
  unfold number_of. rewrite DecimalZ.of_to.
  destruct (int_eq_dec (Z.to_int n) (Z.to_int n)) as [_ | N];
    [ reflexivity | contradiction ].
Qed.

Lemma show_number_head n rest :
  exists c r, show_number n ++ rest = String c r /\ number_start c = true.
Proof.
  unfold show_number. destruct n as [ | p | p]; simpl.
  - eexists. eexists. split; reflexivity.
  - pose proof (DecimalPos.Unsigned.to_uint_nonnil p) as N.
    destruct (Pos.to_uint p); try contradiction;
      simpl; eexists; eexists; split; reflexivity.
  - eexists. eexists. split; reflexivity.
Qed.

Lemma parse_number_int i rest :
  no_digit_head rest ->
  match i with Pos u => u <> Nil | Neg _ => True end ->
  parse_number (NilEmpty.string_of_int i ++ rest)
  = match number_of i with Some n => Some (n, rest) | None => None end.
Proof.
  intros H N. unfold parse_number. destruct i as [u | u].
  - destruct u as [ | u | u | u | u | u | u | u | u | u | u ];
      try contradiction;
      cbn [NilEmpty.string_of_int NilEmpty.string_of_uint append];
      match goal with
      | |- context [(nat_of_ascii ?c =? 45)%nat] =>
          change (nat_of_ascii c =? 45)%nat with false
      end;
      cbv beta iota;
      match type of N with
      | ?d <> Nil => pose proof (parse_digits_uint d rest H) as PD
      end;
      cbn [NilEmpty.string_of_uint append] in PD; rewrite PD; reflexivity.
  - cbn [NilEmpty.string_of_int append].
    change (nat_of_ascii "-" =? 45)%nat with true. cbv beta iota.
    rewrite (parse_digits_uint u rest H). reflexivity.
Qed.

Lemma parse_number_show n rest :
  no_digit_head rest ->
  parse_number (show_number n ++ rest) = Some (n, rest).
Proof.
  intros H. unfold show_number. rewrite parse_number_int.
  - rewrite number_of_to_int. reflexivity.
  - exact H.
  - destruct n as [ | p | p]; simpl; try exact I; try discriminate.
    apply DecimalPos.Unsigned.to_uint_nonnil.
Qed.

(** *** The layout of arrays and objects *)

Lemma Serialize_array indent x xs :
  Serialize indent (JArr (x :: xs))
  = "[" ++ nl ++ (indent ++ gap) ++ Serialize (indent ++ gap) x
    ++ elements_text (indent ++ gap) xs ++ nl ++ indent ++ "]".
Proof.
  cbn [Serialize]. do 5 f_equal.
  induction xs as [ | y ys IH]; [ reflexivity | ].
  cbn [elements_text]. rewrite <- IH. reflexivity.
Qed.

Lemma Serialize_object indent k x ms :
  Serialize indent (JObj ((k, x) :: ms))
  = "{" ++ nl ++ (indent ++ gap) ++ QuoteJSONString k ++ ": "
    ++ Serialize (indent ++ gap) x
    ++ members_text (indent ++ gap) ms ++ nl ++ indent ++ "}".
Proof.
  cbn [Serialize]. do 7 f_equal.
  induction ms as [ | [k' y] ys IH]; [ reflexivity | ].
  cbn [members_text]. rewrite <- IH. reflexivity.
Qed.

(** *** One step of the parser *)

#[local] Arguments parse_string : simpl never.
#[local] Arguments parse_number : simpl never.
#[local] Arguments skip_ws : simpl never.
#[local] Arguments Serialize : simpl never.
#[local] Arguments QuoteJSONString : simpl never.

Lemma number_start_codes c :
  number_start c = true ->
  value_start c = true
  /\ (nat_of_ascii c =? 110)%nat = false
  /\ (nat_of_ascii c =? 116)%nat = false
  /\ (nat_of_ascii c =? 102)%nat = false
  /\ (nat_of_ascii c =? 34)%nat = false
  /\ (nat_of_ascii c =? 91)%nat = false
  /\ (nat_of_ascii c =? 123)%nat = false.
Proof.
  destruct c as [[|] [|] [|] [|] [|] [|] [|] [|]]; intros H;
    first [ discriminate H | repeat split; reflexivity ].
Qed.

Lemma head_is_close s :
  starts_value s ->
  head_is 93 s = false /\ head_is 125 s = false /\ head_is 44 s = false.
Proof.
  destruct s as [ | c r]; simpl; [ contradiction | ]. intros H.
  destruct (value_start_codes c H) as (_ & A & B & C). auto.
Qed.

Lemma skip_ws_indent w s :
  all_ws w = true -> starts_value s -> skip_ws (nl ++ w ++ s) = s.
Proof.
  intros W V.
  change (nl ++ w ++ s) with (String (ascii_of_nat 10) (w ++ s)).
  change (skip_ws (String (ascii_of_nat 10) (w ++ s))) with (skip_ws (w ++ s)).
  rewrite (skip_ws_all_ws _ _ W). apply skip_ws_starts_value. exact V.
Qed.

Lemma skip_ws_to_close w (close : ascii) rest :
  all_ws w = true -> is_ws close = false ->
  skip_ws (nl ++ w ++ String close rest) = String close rest.
Proof.
  intros W C.
  change (nl ++ w ++ String close rest)
    with (String (ascii_of_nat 10) (w ++ String close rest)).
  change (skip_ws (String (ascii_of_nat 10) (w ++ String close rest)))
    with (skip_ws (w ++ String close rest)).
  rewrite (skip_ws_all_ws _ _ W). unfold skip_ws. rewrite C. reflexivity.
Qed.

Lemma pv_string f t rest :
  parse_value (S f) (QuoteJSONString t ++ rest) = Some (JStr t, rest).
Proof.
  pose proof (parse_string_quote t rest) as PS. revert PS.
  unfold QuoteJSONString. simpl. intros ->. reflexivity.
Qed.

Lemma pv_number f n rest :
  no_digit_head rest ->
  parse_value (S f) (show_number n ++ rest) = Some (JNum n, rest).
Proof.
  intros H. pose proof (parse_number_show n rest H) as PN.
  destruct (show_number_head n rest) as (c & r & E & N).
  destruct (number_start_codes c N) as (_ & A1 & A2 & A3 & A4 & A5 & A6).
  rewrite E in *. simpl. rewrite A1, A2, A3, A4, A5, A6, PN. reflexivity.
Qed.

Lemma pv_array f w s x xs r1 r2 :
  all_ws w = true -> starts_value s ->
  parse_value f s = Some (x, r1) ->
  parse_elements f (skip_ws r1) = Some (xs, r2) ->
  parse_value (S f) ("[" ++ nl ++ w ++ s) = Some (JArr (x :: xs), r2).
Proof.
  intros W V P1 P2. pose proof (skip_ws_indent _ _ W V) as K.
  destruct (head_is_close s V) as (A & _).
  change ("[" ++ nl ++ w ++ s) with (String "[" (nl ++ w ++ s)).
  generalize dependent (nl ++ w ++ s). intros t K.
  simpl. rewrite K, A, P1, P2. reflexivity.
Qed.

Lemma pe_close f w rest :
  all_ws w = true ->
  parse_elements (S f) (skip_ws (nl ++ w ++ "]" ++ rest)) = Some ([], rest).
Proof.
  intros W. change ("]" ++ rest) with (String "]" rest).
  rewrite (skip_ws_to_close w "]" rest W) by reflexivity. reflexivity.
Qed.

Lemma pe_next f w s y ys r1 r2 t :
  all_ws w = true -> starts_value s ->
  parse_value f s = Some (y, r1) ->
  parse_elements f (skip_ws r1) = Some (ys, r2) ->
  t = "," ++ nl ++ w ++ s ->
  parse_elements (S f) (skip_ws t) = Some (y :: ys, r2).
Proof.
  intros W V P1 P2 ->. pose proof (skip_ws_indent _ _ W V) as K.
  change (skip_ws ("," ++ nl ++ w ++ s)) with (String "," (nl ++ w ++ s)).
  generalize dependent (nl ++ w ++ s). intros t K.
  simpl. rewrite K, P1, P2. reflexivity.
Qed.

Lemma pm_member f k s x r1 :
  starts_value s ->
  parse_value f s = Some (x, r1) ->
  parse_member (S f) (QuoteJSONString k ++ ": " ++ s) = Some ((k, x), r1).
Proof.
  intros V P1. pose proof (parse_string_quote k (": " ++ s)) as PS.
  assert (K1 : skip_ws (String ":" (String " " s)) = String ":" (String " " s))
    by reflexivity.
  assert (K2 : skip_ws (String " " s) = s).
  { change (skip_ws (String " " s)) with (skip_ws s).
    apply skip_ws_starts_value. exact V. }
  generalize dependent (QuoteJSONString k ++ ": " ++ s). intros t PS.
  simpl in PS |- *. rewrite PS, K1. simpl. rewrite K2, P1. reflexivity.
Qed.

Lemma quote_starts_value k s : starts_value (QuoteJSONString k ++ s).
Proof. reflexivity. Qed.

Lemma pv_object f w s m ms r1 r2 :
  all_ws w = true -> starts_value s ->
  parse_member f s = Some (m, r1) ->
  parse_members f (skip_ws r1) = Some (ms, r2) ->
  parse_value (S f) ("{" ++ nl ++ w ++ s) = Some (JObj (m :: ms), r2).
Proof.
  intros W V P1 P2. pose proof (skip_ws_indent _ _ W V) as K.
  destruct (head_is_close s V) as (_ & A & _).
  change ("{" ++ nl ++ w ++ s) with (String "{" (nl ++ w ++ s)).
  generalize dependent (nl ++ w ++ s). intros t K.
  simpl. rewrite K, A, P1, P2. reflexivity.
Qed.

Lemma pms_close f w rest :
  all_ws w = true ->
  parse_members (S f) (skip_ws (nl ++ w ++ "}" ++ rest)) = Some ([], rest).
Proof.
  intros W. change ("}" ++ rest) with (String "}" rest).
  rewrite (skip_ws_to_close w "}" rest W) by reflexivity. reflexivity.
Qed.

Lemma pms_next f w s m ms r1 r2 t :
  all_ws w = true -> starts_value s ->
  parse_member f s = Some (m, r1) ->
  parse_members f (skip_ws r1) = Some (ms, r2) ->
  t = "," ++ nl ++ w ++ s ->
  parse_members (S f) (skip_ws t) = Some (m :: ms, r2).
Proof.
  intros W V P1 P2 ->. pose proof (skip_ws_indent _ _ W V) as K.
  change (skip_ws ("," ++ nl ++ w ++ s)) with (String "," (nl ++ w ++ s)).
  generalize dependent (nl ++ w ++ s). intros t K.
  simpl. rewrite K, P1, P2. reflexivity.
Qed.


(** *** The round trip *)

Lemma Serialize_starts_value indent v rest :
  starts_value (Serialize indent v ++ rest).
Proof.
  destruct v as [ | [ | ] | n | t | [ | x xs] | [ | [k x] ms] ];
    try reflexivity.
  destruct (show_number_head n rest) as (c & r & E & N).
  change (Serialize indent (JNum n)) with (show_number n). rewrite E.
  apply (number_start_codes c N).
Qed.

Lemma Serialize_nonempty indent v : (1 <= String.length (Serialize indent v))%nat.
Proof.
  pose proof (Serialize_starts_value indent v "") as H.
  rewrite append_empty_r in H.
  destruct (Serialize indent v); simpl in *; [ contradiction | lia ].
Qed.

Lemma no_digit_after_elements indent xs t :
  no_digit_head (elements_text indent xs ++ nl ++ t).
Proof. destruct xs; reflexivity. Qed.

Lemma no_digit_after_members indent ms t :
  no_digit_head (members_text indent ms ++ nl ++ t).
Proof. destruct ms as [ | [k y] ms]; reflexivity. Qed.

Lemma all_ws_gap indent : all_ws indent = true -> all_ws (indent ++ gap) = true.
Proof. intros H. apply all_ws_app; [ exact H | reflexivity ]. Qed.

Lemma reads_back_all f : reads_back f.
Proof.
  induction f as [ | f (IHv & IHe & IHm & IHms)].
  { repeat split; intros; try lia.
    pose proof (Serialize_nonempty indent v). lia. }
  repeat split.
  - (* values *)
    intros v indent rest L W D.
    destruct v as [ | [ | ] | n | t | [ | x xs] | [ | [k x] ms] ];
      try reflexivity.
    + apply pv_number. exact D.
    + apply pv_string.
    + rewrite Serialize_array in L |- *.
      pose proof (all_ws_gap _ W) as W'.
      set (w := indent ++ gap) in *.
      rewrite !length_append in L. simpl in L. rewrite !append_assoc.
      eapply pv_array.
      * exact W'.
      * apply Serialize_starts_value.
      * apply IHv; [ lia | exact W' | apply no_digit_after_elements ].
      * apply IHe; [ lia | exact W' | exact W ].
    + rewrite Serialize_object in L |- *.
      pose proof (all_ws_gap _ W) as W'.
      set (w := indent ++ gap) in *.
      rewrite !length_append in L. simpl in L. rewrite !append_assoc.
      eapply pv_object.
      * exact W'.
      * apply quote_starts_value.
      * apply IHm; [ lia | exact W' | apply no_digit_after_members ].
      * apply IHms; [ lia | exact W' | exact W ].
  - (* elements *)
    intros xs indent stepback rest L W1 W2.
    destruct xs as [ | y ys].
    + apply pe_close. exact W2.
    + cbn [elements_text] in L |- *. rewrite !length_append in L. simpl in L.
      apply (pe_next f indent
               (Serialize indent y
                ++ elements_text indent ys ++ nl ++ stepback ++ "]" ++ rest)
               y ys (elements_text indent ys ++ nl ++ stepback ++ "]" ++ rest) rest).
      * exact W1.
      * apply Serialize_starts_value.
      * apply IHv; [ lia | exact W1 | apply no_digit_after_elements ].
      * apply IHe; [ lia | exact W1 | exact W2 ].
      * rewrite !append_assoc. reflexivity.
  - (* one member *)
    intros k x indent rest L W D.
    apply pm_member.
    + apply Serialize_starts_value.
    + apply IHv; [ lia | exact W | exact D ].
  - (* members *)
    intros ms indent stepback rest L W1 W2.
    destruct ms as [ | [k y] ys].
    + apply pms_close. exact W2.
    + cbn [members_text] in L |- *. rewrite !length_append in L. simpl in L.
      apply (pms_next f indent
               (QuoteJSONString k ++ ": " ++ Serialize indent y
                ++ members_text indent ys ++ nl ++ stepback ++ "}" ++ rest)
               (k, y) ys (members_text indent ys ++ nl ++ stepback ++ "}" ++ rest) rest).
      * exact W1.
      * apply quote_starts_value.
      * apply IHm; [ lia | exact W1 | apply no_digit_after_members ].
      * apply IHms; [ lia | exact W1 | exact W2 ].
      * rewrite !append_assoc. reflexivity.
Qed.

(** [JSON.parse (JSON.stringify (v, null, 2))] is [v]. *)
Lemma parse_stringify v : parse (stringify v) = Some v.
Proof.
  unfold parse, stringify.
  pose proof (Serialize_starts_value "" v "") as V.
  rewrite append_empty_r in V.
  rewrite (skip_ws_starts_value _ V).
  destruct (reads_back_all (S (String.length (Serialize "" v)))) as (R & _).
  specialize (R v "" "" (Nat.le_succ_diag_r _) eq_refl I).
  rewrite append_empty_r in R. rewrite R. reflexivity.
Qed.

(* ===================================================================== *)
(** ** Properties of the dispatcher *)
(* ===================================================================== *)

(** A tool other than [login_user] that issued a request returns what
    the network replied to it, wrapped by the handler. *)
Lemma other_tool_run name args up s rq :
  name <> "login_user" ->
  In rq (issued (CallTool name args up s)) ->
  result (CallTool name args up s) = tool_result (up rq).
Proof.
  intros N. destruct args as [args | ].
  2:{ rewrite missing_arguments_run. simpl. contradiction. }
  destruct (tool_cases name) as [H | [-> | [-> | H]]].
  - destruct (read_tool_run name args H) as (ep & ps & E). rewrite E. simpl.
    intros [<- | []]. reflexivity.
  - contradiction.
  - destruct (authenticated s) eqn:A.
    + rewrite (create_tweet_run _ _ _ A). simpl. intros [<- | []]. reflexivity.
    + rewrite (create_tweet_guarded_run _ _ _ A). simpl. contradiction.
  - rewrite (unknown_tool_run _ _ _ _ H). simpl. contradiction.
Qed.

Lemma count_tool_run name dflt top args :
  In (name, (dflt, top)) count_tools ->
  exists endpoint ps,
    lookup "count" ps
    = Some (Math_min (default (assoc "count" args) (JNum dflt)) top)
    /\ forall up s,
        CallTool name (Some args) up s =
        {| result := tool_result (up (get_request s endpoint ps));
           session := s;
           issued := [get_request s endpoint ps] |}.
Proof.
  intros H. simpl in H.
  repeat (destruct H as [H | H]); try contradiction;
    injection H as <- <- <-;
    unfold_tools;
    match goal with
    | |- context [makeRequest ?ep (Some ?ps)] => exists ep, ps
    end;
    (split; [ reflexivity | intros up s; finish_run up ]).
Qed.

(** C1. For each of the six tools that take a count, with the cap the
    catalog declares for it (100, and 50 for search_users): a numeric
    count [n] is forwarded upstream as [min n cap], an absent count as the
    tool's default (10, and 20 for the follower and following lists), and
    the invocation never fails with InvalidParams. *)
Theorem count_clamped_or_defaulted name dflt top args up s :
  In (name, (dflt, top)) count_tools ->
  Registry.maximum_of name "count" = Some top
  /\ (forall n, assoc "count" args = Some (JNum n) ->
        forwarded_count (CallTool name (Some args) up s)
        = Some (Val (JNum (Z.min n top))))
  /\ (assoc "count" args = None ->
        forwarded_count (CallTool name (Some args) up s) = Some (Val (JNum dflt)))
  /\ (forall m,
        result (CallTool name (Some args) up s) <> Threw (McpError InvalidParams m)).
Proof.
  intros H.
  destruct (count_tool_run name dflt top args H) as (ep & ps & L & E).
  split.
  - simpl in H.
    repeat (destruct H as [H | H]); try contradiction;
      injection H as <- <- <-; reflexivity.
  - rewrite E. unfold forwarded_count, param. simpl. rewrite L.
    split; [ | split ].
    + intros n C. rewrite C. reflexivity.
    + intros C. rewrite C. simpl. f_equal. f_equal. f_equal.
      simpl in H.
      repeat (destruct H as [H | H]); try contradiction;
        injection H as <- <- <-; reflexivity.
    + intros m. destruct (up _) as [resp | e]; discriminate.
Qed.

Lemma count_clamped_or_defaulted_witness :
  In ("get_user_followers", (20, 100)) count_tools
  /\ forwarded_count
       (CallTool "get_user_followers"
          (Some [("username", JStr "nasa"); ("count", JNum 500)])
          (ok_with JNull) (new "key"))
     = Some (Val (JNum 100))
  /\ forwarded_count
       (CallTool "get_user_followers" (Some [("username", JStr "nasa")])
          (ok_with JNull) (new "key"))
     = Some (Val (JNum 20)).
Proof.
  assert (H : In ("get_user_followers", (20, 100)) count_tools)
    by (simpl; tauto).
  split; [ exact H | split ].
  - exact (proj1 (proj2 (count_clamped_or_defaulted _ _ _
             [("username", JStr "nasa"); ("count", JNum 500)]
             (ok_with JNull) (new "key") H)) 500 eq_refl).
  - exact (proj1 (proj2 (proj2 (count_clamped_or_defaulted _ _ _
             [("username", JStr "nasa")] (ok_with JNull) (new "key") H))) eq_refl).
Defined.

(** C2, as the code has it.  While no invocation has obtained a cookie,
    create_tweet with an argument bag fails before any upstream call, with
    the error code InternalError and the message "TwitterAPI.io error: Must
    login first before creating tweets"; the code differs from
    InvalidParams and MethodNotFound. *)
Theorem create_tweet_before_login key calls args up :
  no_cookie_obtained calls (new key) ->
  let r := CallTool "create_tweet" (Some args) up (serve calls (new key)) in
  result r
  = Threw (McpError InternalError
             "TwitterAPI.io error: Must login first before creating tweets")
  /\ issued r = []
  /\ session r = new key
  /\ error_code (result r) <> Some InvalidParams
  /\ error_code (result r) <> Some MethodNotFound.
Proof.
  intros H r. subst r. rewrite (no_cookie_obtained_serve _ _ H).
  rewrite create_tweet_guarded_run by reflexivity. simpl.
  repeat split; discriminate.
Qed.

Lemma create_tweet_before_login_witness :
  no_cookie_obtained
    [ {| tool := "login_user";
         arguments := Some [("username", JStr "u"); ("password", JStr "p")];
         network := unauthorized |} ] (new "key")
  /\ issued
       (CallTool "create_tweet" (Some [("text", JStr "hello")]) (ok_with JNull)
          (serve
             [ {| tool := "login_user";
                  arguments := Some [("username", JStr "u"); ("password", JStr "p")];
                  network := unauthorized |} ] (new "key")))
     = [].
Proof.
  assert (H : no_cookie_obtained
                [ {| tool := "login_user";
                     arguments := Some [("username", JStr "u"); ("password", JStr "p")];
                     network := unauthorized |} ] (new "key"))
    by (simpl; split; [ reflexivity | exact I ]).
  split; [ exact H | ].
  exact (proj1 (proj2 (create_tweet_before_login "key" _
                         [("text", JStr "hello")] (ok_with JNull) H))).
Defined.

(** C2, counterexample to the claim as stated: the failure of create_tweet
    without a session and the failure of a read tool on an upstream 401
    carry the same error code, InternalError. *)
Lemma create_tweet_guard_shares_upstream_code :
  result (CallTool "create_tweet" (Some [("text", JStr "hello")])
            unauthorized (new "key"))
  = Threw (McpError InternalError
             "TwitterAPI.io error: Must login first before creating tweets")
  /\ result (CallTool "get_tweet_by_id" (Some [("tweet_id", JStr "20")])
               unauthorized (new "key"))
     = Threw (McpError InternalError
                "TwitterAPI.io error: TwitterAPI.io API error (401): Unauthorized").
Proof. split; reflexivity. Qed.




(** C5. Every request issued from a session the server can be in carries
    a Cookie header exactly when a cookie is stored, with the stored cookie
    as its value, whatever the tool; and the x-api-key header exactly when
    the configured key is not empty.  After a login whose response carries
    a cookie, create_tweet issues its request with that cookie. *)
Theorem credentials_attached :
  (forall s name args up rq,
      reachable s ->
      In rq (issued (CallTool name args up s)) ->
      header "Cookie" rq = loginCookie s
      /\ header "x-api-key" rq
         = if String.eqb (apiKey s) "" then None else Some (JStr (apiKey s)))
  /\ (forall s args up resp c args' up',
        up (login_request s args) = Resolved resp ->
        prop (data resp) "cookie" = Some c ->
        truthy c = true ->
        exists rq,
          issued (CallTool "create_tweet" (Some args') up'
                    (session (CallTool "login_user" (Some args) up s)))
          = [rq]
          /\ endpoint_of rq = "/create_tweet_v2"
          /\ header "Cookie" rq = Some c).
Proof.
  split.
  - intros s name args up rq R H. unfold header.
    rewrite (issued_headers _ _ _ _ _ H).
    split.
    + apply lookup_cookie_header. apply reachable_cookie_ok. exact R.
    + apply lookup_api_key_header.
  - intros s args up resp c args' up' U C T.
    assert (D : data resp <> JNull).
    { intros E. rewrite E in C. discriminate. }
    rewrite (login_resolved_run _ _ _ _ U D). simpl. rewrite C, T.
    set (s' := {| apiKey := apiKey s; loginCookie := Some c |}).
    assert (A : authenticated s' = true) by exact T.
    rewrite (create_tweet_run _ _ _ A). simpl.
    eexists. split; [ reflexivity | ]. split; [ reflexivity | ].
    unfold header. simpl. apply (lookup_cookie_header s'). exact T.
Qed.

Lemma credentials_attached_witness :
  reachable (new "key")
  /\ In (Get "/tweets" {| headers := [("x-api-key", JStr "key")];
                          params := [("tweet_id", Val (JStr "20"))] |})
        (issued (CallTool "get_tweet_by_id" (Some [("tweet_id", JStr "20")])
                   (ok_with JNull) (new "key")))
  /\ header "x-api-key"
       (Get "/tweets" {| headers := [("x-api-key", JStr "key")];
                         params := [("tweet_id", Val (JStr "20"))] |})
     = Some (JStr "key")
  /\ exists rq,
       issued (CallTool "create_tweet" (Some [("text", JStr "hello")]) (ok_with JNull)
                 (session (CallTool "login_user"
                             (Some [("username", JStr "u"); ("password", JStr "p")])
                             (ok_with (JObj [("cookie", JStr "auth=1")])) (new "key"))))
       = [rq]
       /\ endpoint_of rq = "/create_tweet_v2"
       /\ header "Cookie" rq = Some (JStr "auth=1").
Proof.
  assert (R : reachable (new "key")) by (exists "key", []; reflexivity).
  assert (I1 : In (Get "/tweets" {| headers := [("x-api-key", JStr "key")];
                                    params := [("tweet_id", Val (JStr "20"))] |})
                 (issued (CallTool "get_tweet_by_id" (Some [("tweet_id", JStr "20")])
                            (ok_with JNull) (new "key"))))
    by (left; reflexivity).
  split; [ exact R | split; [ exact I1 | split ] ].
  - exact (proj2 (proj1 credentials_attached _ _ _ _ _ R I1)).
  - exact (proj2 credentials_attached (new "key")
             [("username", JStr "u"); ("password", JStr "p")]
             (ok_with (JObj [("cookie", JStr "auth=1")]))
             {| status := 200; data := JObj [("cookie", JStr "auth=1")] |}
             (JStr "auth=1") [("text", JStr "hello")] (ok_with JNull)
             eq_refl eq_refl eq_refl).
Defined.

(** C6. An invocation stores the cookie it obtained (a login_user call
    whose 2xx response body has a truthy cookie member), replacing any
    earlier one, and otherwise leaves the stored cookie as it was; so a
    session that holds a cookie holds one after any sequence of
    invocations. *)
Theorem cookie_set_only_by_login :
  (forall i s,
      loginCookie (session (invoke i s))
      = match cookie_obtained i s with
        | Some c => Some c
        | None => loginCookie s
        end)
  /\ (forall calls s,
        authenticated s = true -> authenticated (serve calls s) = true).
Proof.
  split.
  - intros i s. rewrite session_step.
    destruct (cookie_obtained i s); reflexivity.
  - induction calls as [ | i rest IH]; intros s H; simpl.
    + exact H.
    + apply IH. apply authenticated_step. exact H.
Qed.

Lemma cookie_set_only_by_login_witness :
  authenticated {| apiKey := "key"; loginCookie := Some (JStr "auth=1") |} = true
  /\ authenticated
       (serve
          [ {| tool := "login_user";
               arguments := Some [("username", JStr "u"); ("password", JStr "bad")];
               network := unauthorized |};
            {| tool := "create_tweet";
               arguments := Some [("text", JStr "hello")];
               network := unreachable |};
            {| tool := "login_user";
               arguments := Some [("username", JStr "u"); ("password", JStr "p")];
               network := ok_with (JObj [("user", JObj [])]) |} ]
          {| apiKey := "key"; loginCookie := Some (JStr "auth=1") |})
     = true.
Proof.
  assert (H : authenticated
                {| apiKey := "key"; loginCookie := Some (JStr "auth=1") |} = true)
    by reflexivity.
  split; [ exact H | ].
  exact (proj2 cookie_set_only_by_login _ _ H).
Defined.




(** C10. A login_user call whose upstream request is rejected leaves the
    session, and so the stored cookie, exactly as it was. *)
Theorem failed_login_keeps_session args up s e :
  up (login_request s args) = Rejected e ->
  session (CallTool "login_user" (Some args) up s) = s.
Proof.
  intros U. rewrite (login_rejected_run _ _ _ _ U). reflexivity.
Qed.

Lemma failed_login_keeps_session_witness :
  unauthorized
    (login_request {| apiKey := "key"; loginCookie := Some (JStr "auth=1") |}
       [("username", JStr "u"); ("password", JStr "bad")])
  = Rejected (AxiosFailure "Request failed with status code 401"
                (Some {| status := 401;
                         data := JObj [("error", JStr "Unauthorized")] |}))
  /\ session
       (CallTool "login_user"
          (Some [("username", JStr "u"); ("password", JStr "bad")])
          unauthorized {| apiKey := "key"; loginCookie := Some (JStr "auth=1") |})
     = {| apiKey := "key"; loginCookie := Some (JStr "auth=1") |}.
Proof.
  split; [ reflexivity | ].
  exact (failed_login_keeps_session
           [("username", JStr "u"); ("password", JStr "bad")] unauthorized
           {| apiKey := "key"; loginCookie := Some (JStr "auth=1") |} _ eq_refl).
Defined.

(** C3. A login_user call whose upstream request is rejected returns a
    normal result: one text block whose JSON text reads back as
    {success: false, error: message}, where the message is the one the
    request helper built.  For every other tool a rejected upstream request
    makes the invocation fail with an McpError. *)
Theorem login_failure_is_a_payload :
  (forall args up s e,
      up (login_request s args) = Rejected e ->
      exists message t,
        result (CallTool "login_user" (Some args) up s)
        = Returned {| content := [ {| type := "text"; text := t |} ] |}
        /\ parse t = Some (JObj [("success", JBool false); ("error", JStr message)])
        /\ message = message_or (api_error (thrown_by e)) "Login failed")
  /\ (forall name args up s rq e,
        name <> "login_user" ->
        In rq (issued (CallTool name args up s)) ->
        up rq = Rejected e ->
        exists c m, result (CallTool name args up s) = Threw (McpError c m)).
Proof.
  split.
  - intros args up s e U. rewrite (login_rejected_run _ _ _ _ U).
    eexists. eexists. split; [ reflexivity | ]. split; [ | reflexivity ].
    apply parse_stringify.
  - intros name args up s rq e N I U.
    rewrite (other_tool_run _ _ _ _ _ N I), U.
    eexists. eexists. reflexivity.
Qed.

Lemma login_failure_is_a_payload_witness :
  unauthorized (login_request (new "key")
                  [("username", JStr "u"); ("password", JStr "bad")])
  = Rejected (AxiosFailure "Request failed with status code 401"
                (Some {| status := 401;
                         data := JObj [("error", JStr "Unauthorized")] |}))
  /\ exists message t,
       result (CallTool "login_user"
                 (Some [("username", JStr "u"); ("password", JStr "bad")])
                 unauthorized (new "key"))
       = Returned {| content := [ {| type := "text"; text := t |} ] |}
       /\ parse t = Some (JObj [("success", JBool false); ("error", JStr message)])
       /\ message
          = message_or
              (api_error
                 (thrown_by
                    (AxiosFailure "Request failed with status code 401"
                       (Some {| status := 401;
                                data := JObj [("error", JStr "Unauthorized")] |}))))
              "Login failed".
Proof.
  split; [ reflexivity | ].
  exact (proj1 login_failure_is_a_payload
           [("username", JStr "u"); ("password", JStr "bad")] unauthorized
           (new "key") _ eq_refl).
Defined.



(** C9, as the code has it.  When login_user receives a 2xx response
    whose body is not null and has no cookie member (or a falsy one), the
    result is a text block that reads back as {success: true, message:
    "Login successful", user: the user member of the body or {}}, and the
    session is unchanged. *)
Theorem login_without_cookie_reports_success args up s resp :
  up (login_request s args) = Resolved resp ->
  data resp <> JNull ->
  truthy_opt (prop (data resp) "cookie") = false ->
  exists t,
    result (CallTool "login_user" (Some args) up s)
    = Returned {| content := [ {| type := "text"; text := t |} ] |}
    /\ parse t
       = Some (JObj [("success", JBool true);
                     ("message", JStr "Login successful");
                     ("user", or_else (prop (data resp) "user") (JObj []))])
    /\ session (CallTool "login_user" (Some args) up s) = s.
Proof.
  intros U D C. rewrite (login_resolved_run _ _ _ _ U D). simpl.
  eexists. split; [ reflexivity | ]. split.
  - apply parse_stringify.
  - destruct (prop (data resp) "cookie") as [c | ]; [ | reflexivity ].
    simpl in C. rewrite C. reflexivity.
Qed.

Lemma login_without_cookie_reports_success_witness :
  ok_with (JObj [("user", JObj [("id", JStr "11")])])
    (login_request (new "key") [("username", JStr "u"); ("password", JStr "p")])
  = Resolved {| status := 200; data := JObj [("user", JObj [("id", JStr "11")])] |}
  /\ JObj [("user", JObj [("id", JStr "11")])] <> JNull
  /\ truthy_opt (prop (JObj [("user", JObj [("id", JStr "11")])]) "cookie") = false
  /\ session (CallTool "login_user"
                (Some [("username", JStr "u"); ("password", JStr "p")])
                (ok_with (JObj [("user", JObj [("id", JStr "11")])])) (new "key"))
     = new "key".
Proof.
  assert (D : JObj [("user", JObj [("id", JStr "11")])] <> JNull) by discriminate.
  split; [ reflexivity | split; [ exact D | split; [ reflexivity | ] ] ].
  destruct (login_without_cookie_reports_success
              [("username", JStr "u"); ("password", JStr "p")]
              (ok_with (JObj [("user", JObj [("id", JStr "11")])])) (new "key")
              {| status := 200; data := JObj [("user", JObj [("id", JStr "11")])] |}
              eq_refl D eq_refl) as (t & _ & _ & S).
  exact S.
Defined.

(** C9, counterexample to the claim as stated: a 2xx response whose body
    is null has no cookie member, and the login payload is success: false,
    with the message of the TypeError raised by reading the cookie. *)
Lemma login_null_body_reports_failure :
  let r := CallTool "login_user"
             (Some [("username", JStr "u"); ("password", JStr "p")])
             (ok_with JNull) (new "key") in
  prop JNull "cookie" = None
  /\ result r
     = Returned
         (text_result
            (JObj [("success", JBool false);
                   ("error", JStr "Cannot read properties of null (reading 'cookie')")]))
  /\ session r = new "key".
Proof. repeat split. Qed.

(* ===================================================================== *)
(** ** Further properties of the handler *)
(* ===================================================================== *)

(** Case analysis on the tool an invocation with an argument bag names,
    rewriting the run in each case. *)
Ltac tool_split name args up s :=
  let H := fresh "H" in
  destruct (tool_cases name) as [H | [-> | [-> | H]]];
  [ let ep := fresh "ep" in
    let ps := fresh "ps" in
    let E := fresh "E" in
    destruct (read_tool_run name args H) as (ep & ps & E); rewrite E
  | let resp := fresh "resp" in
    let e := fresh "e" in
    let U := fresh "U" in
    let D := fresh "D" in
    destruct (up (login_request s args)) as [resp | e] eqn:U;
    [ destruct (data resp) eqn:D;
      [ rewrite (login_null_run _ _ _ _ U D)
      | rewrite (login_resolved_run _ _ _ _ U) by (rewrite D; discriminate) .. ]
    | rewrite (login_rejected_run _ _ _ _ U) ]
  | let A := fresh "A" in
    destruct (authenticated s) eqn:A;
    [ rewrite (create_tweet_run _ _ _ A)
    | rewrite (create_tweet_guarded_run _ _ _ A) ]
  | rewrite (unknown_tool_run _ _ _ _ H) ].

Lemma catalog_names : map Registry.name Registry.tools = known_tools.
Proof. reflexivity. Qed.

Lemma tool_result_not_method_not_found r :
  error_code (tool_result r) <> Some MethodNotFound.
Proof. destruct r; discriminate. Qed.

(** X1. An invocation with an argument bag fails with MethodNotFound
    exactly when its name is not one of the catalog; it then issues no
    upstream call, leaves the session as it was and names the tool in the
    message. *)
Theorem method_not_found_iff_unlisted name args up s :
  (error_code (result (CallTool name (Some args) up s)) = Some MethodNotFound
   <-> ~ In name (map Registry.name Registry.tools))
  /\ (~ In name (map Registry.name Registry.tools) ->
      CallTool name (Some args) up s
      = {| result := Threw (McpError MethodNotFound ("Unknown tool: " ++ name));
           session := s; issued := [] |}).
Proof.
  rewrite catalog_names. split.
  - split.
    + intros E N. revert E.
      assert (K : name = "login_user" \/ name = "create_tweet" \/ In name read_tools).
      { unfold known_tools in N. apply in_app_or in N.
        destruct N as [N | [<- | [<- | []]]]; auto. }
      clear N. tool_split name args up s; simpl;
        try discriminate; try apply tool_result_not_method_not_found.
      intros _. apply H. unfold known_tools. apply in_or_app.
      destruct K as [-> | [-> | K]]; simpl; auto.
    + intros N. rewrite (unknown_tool_run _ _ _ _ N). reflexivity.
  - intros N. apply unknown_tool_run. exact N.
Qed.

Lemma method_not_found_iff_unlisted_witness :
  ~ In "delete_tweet" (map Registry.name Registry.tools)
  /\ CallTool "delete_tweet" (Some [("id", JStr "20")]) (ok_with JNull) (new "key")
     = {| result := Threw (McpError MethodNotFound "Unknown tool: delete_tweet");
          session := new "key"; issued := [] |}.
Proof.
  assert (N : ~ In "delete_tweet" (map Registry.name Registry.tools)).
  { simpl. intros H. repeat (destruct H as [H | H]; try discriminate H). exact H. }
  split; [ exact N | ].
  exact (proj2 (method_not_found_iff_unlisted "delete_tweet" [("id", JStr "20")]
                  (ok_with JNull) (new "key")) N).
Defined.

(** X2. Whatever an invocation throws is an McpError: the code is
    InvalidParams exactly when the request has no argument bag, and with a
    bag and a catalog name it is InternalError. *)
Theorem failures_are_mcp_errors name args up s e :
  result (CallTool name args up s) = Threw e ->
  exists c m,
    e = McpError c m
    /\ (c = InvalidParams <-> args = None)
    /\ (args <> None -> In name (map Registry.name Registry.tools) ->
        c = InternalError).
Proof.
  rewrite catalog_names. destruct args as [args | ].
  2:{ rewrite missing_arguments_run. simpl. intros [= <-].
      eexists. eexists. split; [ reflexivity | ]. split.
      - split; reflexivity.
      - intros N. contradiction. }
  tool_split name args up s; simpl; try discriminate.
  - destruct (up _) as [resp | r]; simpl; [ discriminate | ].
    intros [= <-]. eexists. eexists. split; [ reflexivity | ].
    split; [ split; discriminate | reflexivity ].
  - destruct (up _) as [resp | r]; simpl; [ discriminate | ].
    intros [= <-]. eexists. eexists. split; [ reflexivity | ].
    split; [ split; discriminate | reflexivity ].
  - intros [= <-]. eexists. eexists. split; [ reflexivity | ].
    split; [ split; discriminate | reflexivity ].
  - intros [= <-]. eexists. eexists. split; [ reflexivity | ].
    split; [ split; discriminate | ]. intros _ K. contradiction.
Qed.

Lemma failures_are_mcp_errors_witness :
  result (CallTool "get_tweet_by_id" (Some [("tweet_id", JStr "20")])
            unreachable (new "key"))
  = Threw (McpError InternalError
             "TwitterAPI.io error: TwitterAPI.io API error (500): connect ECONNREFUSED")
  /\ exists c m,
       McpError InternalError
         "TwitterAPI.io error: TwitterAPI.io API error (500): connect ECONNREFUSED"
       = McpError c m
       /\ (c = InvalidParams <-> Some [("tweet_id", JStr "20")] = None)
       /\ (Some [("tweet_id", JStr "20")] <> None ->
           In "get_tweet_by_id" (map Registry.name Registry.tools) ->
           c = InternalError).
Proof.
  split; [ reflexivity | ].
  exact (failures_are_mcp_errors "get_tweet_by_id" (Some [("tweet_id", JStr "20")])
           unreachable (new "key") _ eq_refl).
Defined.

(** X3. An invocation makes at most one call on the HTTP client: nothing
    is retried, whatever the network answers. *)
Theorem at_most_one_request name args up s :
  (length (issued (CallTool name args up s)) <= 1)%nat.
Proof.
  destruct args as [args | ]; [ | rewrite missing_arguments_run; simpl; lia ].
  tool_split name args up s; simpl; lia.
Qed.

(** X4. Whatever an invocation returns is exactly one block of type text
    whose text is a JSON text. *)
Theorem results_are_one_json_text name args up s r :
  result (CallTool name args up s) = Returned r ->
  exists t v, r = one_text t /\ parse t = Some v.
Proof.
  destruct args as [args | ]; [ | rewrite missing_arguments_run; discriminate ].
  tool_split name args up s; simpl; try discriminate;
    try (destruct (up _) as [resp' | r']; simpl; [ | discriminate ]);
    intros [= <-]; eexists; eexists; (split; [ reflexivity | ]);
    apply parse_stringify.
Qed.

Lemma results_are_one_json_text_witness :
  result (CallTool "search_users" (Some [("query", JStr "nasa")])
            (ok_with (JArr [JStr "a"; JStr "b"])) (new "key"))
  = Returned (text_result (JArr [JStr "a"; JStr "b"]))
  /\ exists t v, text_result (JArr [JStr "a"; JStr "b"]) = one_text t /\ parse t = Some v.
Proof.
  split; [ reflexivity | ].
  exact (results_are_one_json_text "search_users" (Some [("query", JStr "nasa")])
           (ok_with (JArr [JStr "a"; JStr "b"])) (new "key") _ eq_refl).
Defined.

Lemma read_tool_route name args :
  In name read_tools ->
  exists endpoint ps,
    In (name, (GET, endpoint)) routes
    /\ forall up s,
        CallTool name (Some args) up s =
        {| result := tool_result (up (get_request s endpoint ps));
           session := s;
           issued := [get_request s endpoint ps] |}.
Proof.
  intros H. simpl in H.
  repeat (destruct H as [<- | H]); try contradiction;
    unfold_tools;
    match goal with
    | |- context [makeRequest ?ep (Some ?ps)] => exists ep, ps
    end;
    (split; [ simpl; tauto | intros up s; finish_run up ]).
Qed.

Lemma login_issues args up s :
  issued (CallTool "login_user" (Some args) up s) = [login_request s args].
Proof.
  destruct (up (login_request s args)) as [resp | e] eqn:U.
  - destruct (data resp) eqn:D;
      [ rewrite (login_null_run _ _ _ _ U D); reflexivity
      | rewrite (login_resolved_run _ _ _ _ U) by (rewrite D; discriminate);
        reflexivity .. ].
  - rewrite (login_rejected_run _ _ _ _ U). reflexivity.
Qed.

(** X5. The HTTP method and the path of a request depend on the tool
    alone: each request an invocation issues is the entry of its tool in
    the route table, a GET for the nine read tools and a POST for login_user
    and create_tweet, whatever the arguments, the session and the network. *)
Theorem request_follows_route name args up s rq :
  In rq (issued (CallTool name args up s)) ->
  In (name, (method_of rq, endpoint_of rq)) routes.
Proof.
  destruct args as [args | ].
  2:{ rewrite missing_arguments_run. simpl. contradiction. }
  destruct (tool_cases name) as [H | [-> | [-> | H]]].
  - destruct (read_tool_route name args H) as (ep & ps & R & E). rewrite E. simpl.
    intros [<- | []]. exact R.
  - rewrite login_issues. simpl. intros [<- | []]. simpl. tauto.
  - destruct (authenticated s) eqn:A.
    + rewrite (create_tweet_run _ _ _ A). simpl. intros [<- | []]. simpl. tauto.
    + rewrite (create_tweet_guarded_run _ _ _ A). simpl. contradiction.
  - rewrite (unknown_tool_run _ _ _ _ H). simpl. contradiction.
Qed.

Lemma request_follows_route_witness :
  In (Get "/tweet/replies"
        {| headers := [("x-api-key", JStr "key")];
           params := [("id", Val (JStr "20")); ("count", Val (JNum 10))] |})
     (issued (CallTool "get_tweet_replies" (Some [("tweet_id", JStr "20")])
                unreachable (new "key")))
  /\ In ("get_tweet_replies", (GET, "/tweet/replies")) routes.
Proof.
  assert (I1 : In (Get "/tweet/replies"
                     {| headers := [("x-api-key", JStr "key")];
                        params := [("id", Val (JStr "20")); ("count", Val (JNum 10))] |})
                  (issued (CallTool "get_tweet_replies" (Some [("tweet_id", JStr "20")])
                             unreachable (new "key"))))
    by (left; reflexivity).
  split; [ exact I1 | ].
  exact (request_follows_route _ _ _ _ _ I1).
Defined.

(** X6. login_user with an argument bag never fails: it issues its one
    POST and returns a text block that reads back as an object whose first
    member is success.  The flag is true exactly when the request resolved
    with a body other than null, and a payload with success false leaves the
    session as it was. *)
Theorem login_always_answers args up s :
  exists b rest t,
    result (CallTool "login_user" (Some args) up s) = Returned (one_text t)
    /\ parse t = Some (JObj (("success", JBool b) :: rest))
    /\ (b = true
        <-> exists resp, up (login_request s args) = Resolved resp
                         /\ data resp <> JNull)
    /\ (b = false -> session (CallTool "login_user" (Some args) up s) = s)
    /\ issued (CallTool "login_user" (Some args) up s) = [login_request s args].
Proof.
  destruct (up (login_request s args)) as [resp | e] eqn:U.
  - assert (N : data resp = JNull \/ data resp <> JNull).
    { destruct (data resp); [ left; reflexivity | right; discriminate .. ]. }
    destruct N as [N | N].
    + rewrite (login_null_run _ _ _ _ U N).
      exists false. eexists. eexists. split; [ reflexivity | ].
      split; [ apply parse_stringify | ].
      split; [ | split; reflexivity ].
      split; [ discriminate | ].
      intros (resp' & [= <-] & K). contradiction.
    + rewrite (login_resolved_run _ _ _ _ U N).
      exists true. eexists. eexists. split; [ reflexivity | ].
      split; [ apply parse_stringify | ].
      split; [ | split; [ discriminate | reflexivity ] ].
      split; [ | reflexivity ].
      intros _. exists resp. split; [ reflexivity | exact N ].
  - rewrite (login_rejected_run _ _ _ _ U).
    exists false. eexists. eexists. split; [ reflexivity | ].
    split; [ apply parse_stringify | ].
    split; [ | split; reflexivity ].
    split; [ discriminate | ].
    intros (resp' & [=] & _).
Qed.



(** X8. The catalog declares a minimum of 1 for every count, but no
    lower bound is applied: a numeric count that does not exceed the cap,
    zero and negative ones included, is forwarded upstream as it was given. *)
Theorem count_below_cap_forwarded name dflt top args up s n :
  In (name, (dflt, top)) count_tools ->
  assoc "count" args = Some (JNum n) ->
  n <= top ->
  minimum_of name "count" = Some 1
  /\ forwarded_count (CallTool name (Some args) up s) = Some (Val (JNum n)).
Proof.
  intros H C L.
  destruct (count_tool_run name dflt top args H) as (ep & ps & K & E).
  split.
  - simpl in H.
    repeat (destruct H as [H | H]); try contradiction;
      injection H as <- <- <-; reflexivity.
  - rewrite E. unfold forwarded_count, param. simpl. rewrite K, C. simpl.
    rewrite Z.min_l by exact L. reflexivity.
Qed.

Lemma count_below_cap_forwarded_witness :
  In ("search_users", (10, 50)) count_tools
  /\ assoc "count" [("query", JStr "nasa"); ("count", JNum (-3))] = Some (JNum (-3))
  /\ -3 <= 50
  /\ forwarded_count
       (CallTool "search_users" (Some [("query", JStr "nasa"); ("count", JNum (-3))])
          (ok_with JNull) (new "key"))
     = Some (Val (JNum (-3))).
Proof.
  assert (H : In ("search_users", (10, 50)) count_tools) by (simpl; tauto).
  assert (L : -3 <= 50) by lia.
  split; [ exact H | split; [ reflexivity | split; [ exact L | ] ] ].
  exact (proj2 (count_below_cap_forwarded _ _ _
                  [("query", JStr "nasa"); ("count", JNum (-3))]
                  (ok_with JNull) (new "key") (-3) H eq_refl L)).
Defined.

(** X9. The default count replaces a missing count only.  A count that
    is present but null or a boolean is coerced by Math.min: null and false
    are forwarded as 0 and true as 1, for each of the six count tools. *)
Theorem null_count_is_not_defaulted name dflt top args up s :
  In (name, (dflt, top)) count_tools ->
  (assoc "count" args = Some JNull ->
   forwarded_count (CallTool name (Some args) up s) = Some (Val (JNum 0)))
  /\ (assoc "count" args = Some (JBool false) ->
      forwarded_count (CallTool name (Some args) up s) = Some (Val (JNum 0)))
  /\ (assoc "count" args = Some (JBool true) ->
      forwarded_count (CallTool name (Some args) up s) = Some (Val (JNum 1))).
Proof.
  intros H.
  destruct (count_tool_run name dflt top args H) as (ep & ps & K & E).
  assert (T : 1 <= top).
  { simpl in H.
    repeat (destruct H as [H | H]); try contradiction;
      injection H as <- <- <-; lia. }
  rewrite E. unfold forwarded_count, param. simpl. rewrite K.
  repeat split; intros C; rewrite C; simpl; rewrite Z.min_l by lia; reflexivity.
Qed.

Lemma null_count_is_not_defaulted_witness :
  In ("get_user_followers", (20, 100)) count_tools
  /\ forwarded_count
       (CallTool "get_user_followers"
          (Some [("username", JStr "nasa"); ("count", JNull)])
          (ok_with JNull) (new "key"))
     = Some (Val (JNum 0)).
Proof.
  assert (H : In ("get_user_followers", (20, 100)) count_tools) by (simpl; tauto).
  split; [ exact H | ].
  exact (proj1 (null_count_is_not_defaulted _ _ _
                  [("username", JStr "nasa"); ("count", JNull)]
                  (ok_with JNull) (new "key") H) eq_refl).
Defined.




(** X11. In every session the server can be in, a stored cookie is a
    truthy value; so the guard of create_tweet and the Cookie header test
    fail exactly when no cookie is stored. *)
Theorem stored_cookie_is_truthy s :
  reachable s ->
  (forall c, loginCookie s = Some c -> truthy c = true)
  /\ (authenticated s = false <-> loginCookie s = None).
Proof.
  intros R. pose proof (reachable_cookie_ok s R) as K.
  unfold cookie_ok, authenticated in *.
  destruct (loginCookie s) as [c | ]; simpl.
  - split.
    + intros c' [= <-]. exact K.
    + rewrite K. split; discriminate.
  - split; [ discriminate | split; reflexivity ].
Qed.

Lemma stored_cookie_is_truthy_witness :
  reachable
    (serve [ {| tool := "login_user";
                arguments := Some [("username", JStr "u"); ("password", JStr "p")];
                network := ok_with (JObj [("cookie", JStr "")]) |} ] (new "key"))
  /\ loginCookie
       (serve [ {| tool := "login_user";
                   arguments := Some [("username", JStr "u"); ("password", JStr "p")];
                   network := ok_with (JObj [("cookie", JStr "")]) |} ] (new "key"))
     = None.
Proof.
  assert (R : reachable
                (serve [ {| tool := "login_user";
                            arguments :=
                              Some [("username", JStr "u"); ("password", JStr "p")];
                            network := ok_with (JObj [("cookie", JStr "")]) |} ]
                   (new "key")))
    by (exists "key"; eexists; reflexivity).
  split; [ exact R | ].
  exact (proj1 (proj2 (stored_cookie_is_truthy _ R)) eq_refl).
Defined.

Lemma apiKey_step i s : apiKey (session (invoke i s)) = apiKey s.
Proof.
  rewrite session_step. destruct (cookie_obtained i s); reflexivity.
Qed.

Lemma apiKey_serve calls : forall s, apiKey (serve calls s) = apiKey s.
Proof.
  induction calls as [ | i rest IH]; intros s; simpl.
  - reflexivity.
  - rewrite IH. apply apiKey_step.
Qed.

(** X12. The key is read once, by the constructor.  A server started with
    TWITTERAPI_API_KEY unset or empty prints the warning and still serves
    calls; every request it issues afterwards, after any sequence of
    invocations, has no x-api-key header.  Started with a key, it prints no
    warning and every request carries that key. *)
Theorem key_read_at_startup env :
  (In (Startup.console_error "Warning: TWITTERAPI_API_KEY environment variable not set")
      (Startup.console (Startup.constructor env))
   <-> unset_or_empty (env "TWITTERAPI_API_KEY"))
  /\ (forall calls name args up rq,
        In rq (issued (CallTool name args up
                         (serve calls (Startup.fields (Startup.constructor env))))) ->
        header "x-api-key" rq
        = match env "TWITTERAPI_API_KEY" with
          | Some k => if String.eqb k "" then None else Some (JStr k)
          | None => None
          end).
Proof.
  split.
  - unfold Startup.constructor, unset_or_empty. simpl.
    destruct (env "TWITTERAPI_API_KEY") as [k | ]; simpl.
    + destruct (String.eqb_spec k "") as [-> | N]; simpl.
      * split; [ intros _; right; reflexivity | intros _; left; reflexivity ].
      * apply String.eqb_neq in N. rewrite N. simpl.
        split.
        -- intros H. exfalso.
           destruct (Startup.or_string _ _) as [u | ]; [ | exact H ].
           destruct (negb (String.eqb u "")); simpl in H; [ | exact H ].
           destruct H as [H | H]; [ discriminate H | exact H ].
        -- intros [H | H]; [ discriminate H | ].
           injection H as ->. discriminate N.
    + split; [ intros _; left; reflexivity | intros _; left; reflexivity ].
  - intros calls name args up rq I. unfold header.
    rewrite (issued_headers _ _ _ _ _ I), lookup_api_key_header, apiKey_serve.
    unfold Startup.constructor. simpl.
    destruct (env "TWITTERAPI_API_KEY") as [k | ]; simpl; [ | reflexivity ].
    destruct (String.eqb k "") eqn:K; simpl; [ reflexivity | ].
    rewrite K. reflexivity.
Qed.

Lemma key_read_at_startup_witness :
  In (Get "/tweets" {| headers := []; params := [("tweet_id", Val (JStr "20"))] |})
     (issued (CallTool "get_tweet_by_id" (Some [("tweet_id", JStr "20")]) (ok_with JNull)
                (serve [] (Startup.fields (Startup.constructor (fun _ => None))))))
  /\ header "x-api-key"
       (Get "/tweets" {| headers := []; params := [("tweet_id", Val (JStr "20"))] |})
     = None.
Proof.
  assert (I1 : In (Get "/tweets"
                     {| headers := []; params := [("tweet_id", Val (JStr "20"))] |})
                  (issued (CallTool "get_tweet_by_id" (Some [("tweet_id", JStr "20")])
                             (ok_with JNull)
                             (serve [] (Startup.fields
                                          (Startup.constructor (fun _ => None)))))))
    by (left; reflexivity).
  split; [ exact I1 | ].
  exact (proj2 (key_read_at_startup (fun _ => None)) [] _ _ _ _ I1).
Defined.



(** X14. A rejection that is not an AxiosError is passed on unchanged by
    the request helper.  For a tool other than login_user the handler then
    reports the message of the error after the prefix TwitterAPI.io error,
    and Unknown error occurred for a rejection that is not an Error; for
    login_user the payload carries the message, and Login failed for a
    rejection that is not an Error. *)
Theorem other_rejections_reported :
  (forall name args up s rq,
      name <> "login_user" ->
      In rq (issued (CallTool name args up s)) ->
      (forall m, up rq = Rejected (OtherError m) ->
                 result (CallTool name args up s)
                 = Threw (McpError InternalError ("TwitterAPI.io error: " ++ m)))
      /\ (forall v, up rq = Rejected (NonError v) ->
                    result (CallTool name args up s)
                    = Threw (McpError InternalError
                               "TwitterAPI.io error: Unknown error occurred")))
  /\ (forall args up s,
        (forall m, up (login_request s args) = Rejected (OtherError m) ->
                   result (CallTool "login_user" (Some args) up s)
                   = Returned (text_result (login_failed m)))
        /\ (forall v, up (login_request s args) = Rejected (NonError v) ->
                      result (CallTool "login_user" (Some args) up s)
                      = Returned (text_result (login_failed "Login failed")))).
Proof.
  split.
  - intros name args up s rq N I.
    rewrite (other_tool_run _ _ _ _ _ N I).
    split; intros x U; rewrite U; reflexivity.
  - intros args up s.
    split; intros x U; rewrite (login_rejected_run _ _ _ _ U); reflexivity.
Qed.

Lemma other_rejections_reported_witness :
  "search_users" <> "login_user"
  /\ In (get_request (new "key") "/user/search"
           [("query", Val (JStr "nasa")); ("count", Val (JNum 10))])
        (issued (CallTool "search_users" (Some [("query", JStr "nasa")])
                   (broken_with (NonError (JStr "boom"))) (new "key")))
  /\ result (CallTool "search_users" (Some [("query", JStr "nasa")])
               (broken_with (NonError (JStr "boom"))) (new "key"))
     = Threw (McpError InternalError "TwitterAPI.io error: Unknown error occurred").
Proof.
  assert (N : "search_users" <> "login_user") by discriminate.
  assert (I1 : In (get_request (new "key") "/user/search"
                     [("query", Val (JStr "nasa")); ("count", Val (JNum 10))])
                  (issued (CallTool "search_users" (Some [("query", JStr "nasa")])
                             (broken_with (NonError (JStr "boom"))) (new "key"))))
    by (left; reflexivity).
  split; [ exact N | split; [ exact I1 | ] ].
  exact (proj2 (proj1 other_rejections_reported _ _ _ _ _ N I1) (JStr "boom") eq_refl).
Defined.

(** X15. A tool reads only the arguments its catalog entry declares: two
    argument bags that agree on the declared properties of a tool give
    the same requests, the same result and the same session. *)
Theorem undeclared_arguments_ignored t args args' up s :
  In t Registry.tools ->
  (forall p, In p (map fst (Registry.properties t)) -> assoc p args = assoc p args') ->
  CallTool (Registry.name t) (Some args) up s
  = CallTool (Registry.name t) (Some args') up s.
Proof.
  intros H Hp. unfold Registry.tools in H. simpl in H.
  repeat (destruct H as [<- | H]); try contradiction;
    cbn [Registry.name Registry.properties map fst] in *;
    unfold CallTool; cbv beta iota delta [String.eqb Ascii.eqb Bool.eqb];
    repeat match goal with
           | |- context [assoc ?k args] => rewrite (Hp k) by (simpl; tauto)
           end;
    reflexivity.
Qed.

Lemma undeclared_arguments_ignored_witness :
  In {| Registry.name := "get_user_by_id";
        Registry.description := "Get Twitter user information by user ID";
        Registry.properties := [("user_id", Registry.text_property "Twitter user ID")];
        Registry.required := ["user_id"] |} Registry.tools
  /\ CallTool "get_user_by_id" (Some [("user_id", JStr "7"); ("count", JNum 5)])
       unauthorized (new "key")
     = CallTool "get_user_by_id" (Some [("user_id", JStr "7")]) unauthorized (new "key").
Proof.
  assert (H : In {| Registry.name := "get_user_by_id";
                    Registry.description := "Get Twitter user information by user ID";
                    Registry.properties :=
                      [("user_id", Registry.text_property "Twitter user ID")];
                    Registry.required := ["user_id"] |} Registry.tools)
    by (right; left; reflexivity).
  split; [ exact H | ].
  apply (undeclared_arguments_ignored _
           [("user_id", JStr "7"); ("count", JNum 5)] [("user_id", JStr "7")]
           unauthorized (new "key") H).
  intros p [<- | []]. reflexivity.
Defined.



(** X17. The catalog is consistent: the eleven tool names are distinct,
    so a name selects one entry; within an entry the property names are
    distinct and every required field is a declared property; and a
    numeric property's minimum does not exceed its maximum. *)
Theorem catalog_is_consistent :
  NoDup (map Registry.name Registry.tools)
  /\ length Registry.tools = 11%nat
  /\ forall t,
       In t Registry.tools ->
       NoDup (map fst (Registry.properties t))
       /\ (forall r, In r (Registry.required t) ->
                     In r (map fst (Registry.properties t)))
       /\ (forall p ps lo hi,
             In (p, ps) (Registry.properties t) ->
             Registry.minimum ps = Some lo -> Registry.maximum ps = Some hi ->
             lo <= hi).
Proof.
  split; [ | split; [ reflexivity | ] ].
  - simpl.
    repeat (constructor;
            [ simpl; intros H;
              repeat (destruct H as [H | H]; try discriminate H); exact H | ]).
    constructor.
  - intros t H. unfold Registry.tools in H. simpl in H.
    repeat (destruct H as [<- | H]); try contradiction; simpl;
      (split;
       [ repeat (constructor;
                 [ simpl; intros K;
                   repeat (destruct K as [K | K]; try discriminate K); exact K | ]);
         constructor
       | split;
         [ intros r K; repeat (destruct K as [<- | K]); try contradiction; tauto
         | intros p ps lo hi K;
           repeat (destruct K as [[= <- <-] | K]); try contradiction; simpl;
           intros; try discriminate;
           repeat match goal with
                  | E : Some _ = Some _ |- _ => injection E as <-
                  end; lia ] ]).
Qed.

Lemma catalog_is_consistent_witness :
  In {| Registry.name := "get_user_by_id";
        Registry.description := "Get Twitter user information by user ID";
        Registry.properties := [("user_id", Registry.text_property "Twitter user ID")];
        Registry.required := ["user_id"] |} Registry.tools
  /\ In "user_id" ["user_id"].
Proof.
  assert (H : In {| Registry.name := "get_user_by_id";
                    Registry.description := "Get Twitter user information by user ID";
                    Registry.properties :=
                      [("user_id", Registry.text_property "Twitter user ID")];
                    Registry.required := ["user_id"] |} Registry.tools)
    by (right; left; reflexivity).
  split; [ exact H | ].
  exact (proj1 (proj2 (proj2 (proj2 catalog_is_consistent) _ H))
           "user_id" (or_introl eq_refl)).
Defined.
